(** * Pharos MASM-style unparser (libpharos/masm.cpp): model and properties

    A shallow embedding of the x86 operand unparser of [masm.cpp]:
    the label lookup ([masm_x86ValToLabel]), the indexed-address
    recogniser ([X86IndirectAddress]), the recursive expression
    unparser ([masm_unparseX86Expression]) and the opcode byte dump
    ([debug_opcode_bytes]).

    Conventions.
    - A [uint64_t] is a [Z] in [0, 2^64); wrap-around is written out.
    - A pointer that may be null is an [option].
    - A call that aborts the process or has undefined behaviour returns
      [Err] with the reason; every other call returns [Ok] with the text. *)

From Stdlib Require Import ZArith Ascii String List Lia Bool.
From stdpp Require Import gmap strings.

Local Open Scope Z_scope.
Set Warnings "-register-all".

(** ** Outcome of a call *)

Inductive failure : Type :=
| UnhandledExpressionKind (class_name : string)
    (* GFATAL << "Unhandled expression kind " ...; ROSE_ASSERT (false) *)
| UnhandledType
    (* ASSERT_not_reachable("unhandled type: " ...) *)
| NullDereference
    (* a member access through a null pointer *)
| BufferOverrun.
    (* sprintf writing past the end of its destination array *)

Inductive outcome (A : Type) : Type :=
| Ok (a : A)
| Err (f : failure).

Arguments Ok {A} a.
Arguments Err {A} f.

Definition bind {A B : Type} (m : outcome A) (k : A -> outcome B) : outcome B :=
  match m with
  | Ok a => k a
  | Err f => Err f
  end.

Notation "'do' x <- m ; k" := (bind m (fun x => k))
  (at level 10, x name, m at level 100, k at level 200).

(** ** Number formatting (printf and ostream conversions) *)

Module Fmt.

(** One digit of a conversion; [upper] selects %X over %x. *)
Definition digit_char (upper : bool) (d : Z) : ascii :=
  if d <? 10 then ascii_of_N (Z.to_N (48 + d))
  else if upper then ascii_of_N (Z.to_N (55 + d))
  else ascii_of_N (Z.to_N (87 + d)).

(** Digits of [n] in [base], most significant first, prepended to [acc].
    [fuel] bounds the number of digits: 16 hex digits or 20 decimal
    digits cover every 64-bit value. *)
Fixpoint utoa (fuel : nat) (base : Z) (upper : bool) (n : Z) (acc : string)
  : string :=
  match fuel with
  | O => acc
  | S fuel' =>
      let acc' := String (digit_char upper (n mod base)) acc in
      if n / base =? 0 then acc' else utoa fuel' base upper (n / base) acc'
  end.

(** "%llx" and [os << std::hex << v] for a 64-bit [v]. *)
Definition hex (v : Z) : string := utoa 16 16 false v "".

(** "%#llx": the alternate form prefixes "0x" to a nonzero result only. *)
Definition alt_hex (v : Z) : string :=
  if v =? 0 then "0" else "0x" +:+ hex v.

(** [std::to_string] of an unsigned 64-bit value. *)
Definition dec (v : Z) : string := utoa 20 10 false v "".

(** "%02X" of an [unsigned char]. *)
Definition hex_byte (b : Z) : string :=
  String (digit_char true (b / 16)) (String (digit_char true (b mod 16)) "").

(** Reading a hexadecimal numeral back (used to validate [hex]). *)
Definition digit_value (c : ascii) : Z :=
  let n := Z.of_N (N_of_ascii c) in
  if (48 <=? n) && (n <=? 57) then n - 48
  else if (97 <=? n) && (n <=? 102) then n - 87
  else if (65 <=? n) && (n <=? 70) then n - 55
  else 0.

Fixpoint value_of (base : Z) (s : string) (acc : Z) : Z :=
  match s with
  | EmptyString => acc
  | String c s' => value_of base s' (acc * base + digit_value c)
  end.

Definition is_lower_hex (c : ascii) : bool :=
  let n := Z.of_N (N_of_ascii c) in
  ((48 <=? n) && (n <=? 57)) || ((97 <=? n) && (n <=? 102)).

Definition is_upper_hex (c : ascii) : bool :=
  let n := Z.of_N (N_of_ascii c) in
  ((48 <=? n) && (n <=? 57)) || ((65 <=? n) && (n <=? 70)).

Fixpoint all_chars (p : ascii -> bool) (s : string) : bool :=
  match s with
  | EmptyString => true
  | String c s' => p c && all_chars p s'
  end.

(** The first character of a string, as [s[0]] reads it: the terminating
    NUL when the string is empty. *)
Definition front (s : string) : ascii :=
  match s with
  | EmptyString => zero
  | String c _ => c
  end.

(** [std::string::c_str] read as a C string: the characters before the
    first NUL. *)
Fixpoint c_str (s : string) : string :=
  match s with
  | EmptyString => EmptyString
  | String c s' => if Ascii.eqb c zero then EmptyString else String c (c_str s')
  end.

(** [sprintf(buf, ...)] into [char buf[cap]] followed by [result = buf]:
    [text] is the formatted output, which needs [length text + 1] bytes. *)
Definition sprintf (cap : nat) (text : string) : outcome string :=
  if (String.length text <? cap)%nat then Ok text else Err BufferOverrun.

End Fmt.

(** ** 64-bit unsigned arithmetic *)

Definition two64 : Z := 2 ^ 64.
Definition u64 (x : Z) : Z := x mod two64.
(** [~v] on a [uint64_t]. *)
Definition not64 (v : Z) : Z := u64 (Z.lnot v).
(** [~v + 1] on a [uint64_t]. *)
Definition neg64 (v : Z) : Z := u64 (not64 v + 1).
(** The value of a 64-bit pattern read as [int64_t]. *)
Definition s64 (x : Z) : Z :=
  let u := u64 x in if u <? 2 ^ 63 then u else u - two64.

(** ** Data model *)

(** ROSE's register descriptor: major and minor number, bit offset, width. *)
Record RegisterDescriptor : Type := mkReg {
  reg_major : N;
  reg_minor : N;
  reg_offset : N;
  reg_nbits : N
}.

(** Modelled from the spec: [SgAsmIntegerValueExpression] is declared by ROSE,
    outside this repository. A literal is a bit vector of a declared width;
    [bitVector] holds the unsigned bit pattern. The accessors below read the
    pattern the way the spec's data model says: [get_absoluteValue] and
    [getAsmConstant] give the pattern zero-extended to 64 bits,
    [get_signedValue] the pattern sign-extended from its own width. *)
Record SgAsmIntegerValueExpression : Type := mkInt {
  significantBits : Z;
  bitVector : Z
}.

Definition get_significantBits (e : SgAsmIntegerValueExpression) : Z :=
  significantBits e.

Definition get_absoluteValue (e : SgAsmIntegerValueExpression) : Z :=
  u64 (bitVector e mod 2 ^ significantBits e).

Definition getAsmConstant (e : SgAsmIntegerValueExpression) : Z :=
  get_absoluteValue e.

(** [bv.get(bv.size() - 1)]: the top bit of the declared width. *)
Definition sign_bit (e : SgAsmIntegerValueExpression) : bool :=
  Z.testbit (bitVector e) (significantBits e - 1).

Definition get_signedValue (e : SgAsmIntegerValueExpression) : Z :=
  let u := bitVector e mod 2 ^ significantBits e in
  s64 (if sign_bit e then u - 2 ^ significantBits e else u).

(** The declared width is between 1 and 64 and the pattern fits in it. *)
Definition wf_int (e : SgAsmIntegerValueExpression) : Prop :=
  1 <= significantBits e <= 64 /\ 0 <= bitVector e < 2 ^ significantBits e.

(** Types of memory operands, as far as [masm_x86TypeToPtrName] inspects them.
    [SgAsmVectorType_2xU64] is the one object that
    [Rose::SageBuilderAsm::buildTypeVector(2, buildTypeU64())] returns; every
    other vector object, also one of two unsigned 64-bit integers, is a
    [SgAsmVectorType]. *)
Inductive SgAsmType : Type :=
| SgAsmIntegerType (nBits : Z) (isSigned : bool)
| SgAsmFloatType (nBits : Z)
| SgAsmVectorType (nElmts : Z) (elmtType : option SgAsmType)
| SgAsmVectorType_2xU64
| SgAsmOtherType.

(** Operand expressions. The seven variants the unparser handles are spelled
    out under their [variantT] tags; every other variant is [V_Other] with
    its class name. Children are pointers and may be null. *)
Inductive SgAsmExpression : Type :=
| V_SgAsmBinaryAdd (lhs rhs : option SgAsmExpression)
| V_SgAsmBinarySubtract (lhs rhs : option SgAsmExpression)
| V_SgAsmBinaryMultiply (lhs rhs : option SgAsmExpression)
| V_SgAsmMemoryReferenceExpression
    (address segment : option SgAsmExpression) (type : option SgAsmType)
| V_SgAsmDirectRegisterExpression (descriptor : RegisterDescriptor)
| V_SgAsmIndirectRegisterExpression (descriptor : RegisterDescriptor) (index : Z)
| V_SgAsmIntegerValueExpression (value : SgAsmIntegerValueExpression)
| V_Other (class_name : string).

(** [std::map<uint64_t, std::string>]; the unparser receives a pointer to it. *)
Abbreviation RoseLabelMap := (gmap Z string).

(** ** masm_x86ValToLabel *)

Definition masm_x86ValToLabel (val : Z) (labels : option RoseLabelMap) : string :=
  match (val =? 0)%Z, labels with
  | true, _ | _, None => ""
  | false, Some m =>
      match m !! val with
      | None => ""
      | Some name => name
      end
  end.

(** ** masm_x86TypeToPtrName *)

(** [ty == Rose::SageBuilderAsm::buildTypeVector(2, buildTypeU64())]: a
    comparison of pointers, true of that one object only. *)
Definition is_dqword (ty : SgAsmType) : bool :=
  match ty with
  | SgAsmVectorType_2xU64 => true
  | _ => false
  end.

Fixpoint masm_x86TypeToPtrName_at (ty : SgAsmType) : outcome string :=
  match ty with
  | SgAsmIntegerType nBits _ =>
      match nBits with
      | 8 => Ok "byte"
      | 16 => Ok "word"
      | 32 => Ok "dword"
      | 64 => Ok "qword"
      | _ => Err UnhandledType
      end
  | SgAsmFloatType nBits =>
      match nBits with
      | 32 => Ok "float"
      | 64 => Ok "double"
      | 80 => Ok "ldouble"
      | _ => Err UnhandledType
      end
  | _ =>
      if is_dqword ty then Ok "dqword"
      else
        match ty with
        | SgAsmVectorType nElmts elmtType =>
            do inner <- match elmtType with
                        | None => Ok "BAD_TYPE"
                        | Some t => masm_x86TypeToPtrName_at t
                        end;
            Ok ("V" +:+ Fmt.dec (u64 nElmts) +:+ inner)
        | _ => Err UnhandledType
        end
  end.

Definition masm_x86TypeToPtrName (ty : option SgAsmType) : outcome string :=
  match ty with
  | None => Ok "BAD_TYPE"
  | Some t => masm_x86TypeToPtrName_at t
  end.

(** ** Integer literals (the V_SgAsmIntegerValueExpression case) *)

Definition nonzero (x : Z) : bool := negb (x =? 0).

Definition unparse_integer_value
    (int_expr : SgAsmIntegerValueExpression) (labels : option RoseLabelMap)
  : outcome string :=
  let v := getAsmConstant int_expr in
  let bits := get_significantBits int_expr in
  if bits =? 8 then
    if nonzero (Z.land v 0x80) && nonzero (Z.land v 0x7f)
    then Fmt.sprintf 64 ("-" +:+ Fmt.alt_hex (Z.land (neg64 v) 0xff))
    else Fmt.sprintf 64 (Fmt.alt_hex v)
  else if bits =? 16 then
    if nonzero (Z.land v 0x8000) && nonzero (Z.land v 0x7fff)
    then Fmt.sprintf 64 ("-" +:+ Fmt.alt_hex (Z.land (neg64 v) 0xffff))
    else Fmt.sprintf 64 (Fmt.alt_hex v)
  else if bits =? 32 then
    let label := masm_x86ValToLabel v labels in
    if negb (String.eqb label "") then Fmt.sprintf 64 (Fmt.c_str label)
    else if nonzero (Z.land v 0x80000000) && nonzero (Z.land v 0x7fffffff)
    then Fmt.sprintf 64 ("-" +:+ Fmt.alt_hex (Z.land (neg64 v) 0xffffffff))
    else Fmt.sprintf 64 (Fmt.alt_hex v)
  else if bits =? 64 then
    let label := masm_x86ValToLabel v labels in
    if negb (String.eqb label "") then Fmt.sprintf 64 (Fmt.c_str label)
    else if nonzero (Z.land v (Z.shiftl 1 63))
            && nonzero (Z.land v (Z.shiftl 1 63 - 1))
    then Fmt.sprintf 64 ("-" +:+ Fmt.alt_hex (neg64 v))
    else Fmt.sprintf 64 (Fmt.alt_hex v)
  else Ok "".

(** ** Downcasts ([isSgAsm...]): null unless the node has the asked class *)

Definition isSgAsmMemoryReferenceExpression (e : option SgAsmExpression)
  : option (option SgAsmExpression * option SgAsmExpression * option SgAsmType) :=
  match e with
  | Some (V_SgAsmMemoryReferenceExpression a s t) => Some (a, s, t)
  | _ => None
  end.

Definition isSgAsmBinaryAdd (e : option SgAsmExpression)
  : option (option SgAsmExpression * option SgAsmExpression) :=
  match e with
  | Some (V_SgAsmBinaryAdd l r) => Some (l, r)
  | _ => None
  end.

Definition isSgAsmBinaryMultiply (e : option SgAsmExpression)
  : option (option SgAsmExpression * option SgAsmExpression) :=
  match e with
  | Some (V_SgAsmBinaryMultiply l r) => Some (l, r)
  | _ => None
  end.

Definition isSgAsmDirectRegisterExpression (e : option SgAsmExpression)
  : option RegisterDescriptor :=
  match e with
  | Some (V_SgAsmDirectRegisterExpression d) => Some d
  | _ => None
  end.

Definition isSgAsmIntegerValueExpression (e : option SgAsmExpression)
  : option SgAsmIntegerValueExpression :=
  match e with
  | Some (V_SgAsmIntegerValueExpression v) => Some v
  | _ => None
  end.

(** ** X86IndirectAddress *)

Record X86IndirectAddress : Type := mkIA {
  frame_pointer_reg : option RegisterDescriptor;
  offset_integer : option SgAsmIntegerValueExpression;
  index_reg : option RegisterDescriptor;
  stride_integer : option SgAsmIntegerValueExpression;
  complete_ : bool
}.

(** The member initialisers: four null pointers, [complete_ = false]. *)
Definition X86IndirectAddress_init : X86IndirectAddress :=
  mkIA None None None None false.

(** One pass of the constructor's [for] loop either falls through to the
    next operand or leaves the constructor by [return]. *)
Inductive flow : Type :=
| Next (ia : X86IndirectAddress)
| Return (ia : X86IndirectAddress).

Definition classify (ia : X86IndirectAddress) (op : option SgAsmExpression) : flow :=
  match isSgAsmDirectRegisterExpression op with
  | Some reg =>
      match frame_pointer_reg ia with
      | Some _ => Return ia
      | None => Next (mkIA (Some reg) (offset_integer ia) (index_reg ia)
                           (stride_integer ia) (complete_ ia))
      end
  | None =>
  match isSgAsmIntegerValueExpression op with
  | Some val =>
      match offset_integer ia with
      | Some _ => Return ia
      | None => Next (mkIA (frame_pointer_reg ia) (Some val) (index_reg ia)
                           (stride_integer ia) (complete_ ia))
      end
  | None =>
  match isSgAsmBinaryMultiply op with
  | Some (mul_lhs, mul_rhs) =>
      let r_other :=
        match isSgAsmDirectRegisterExpression mul_lhs with
        | Some r => Some (r, mul_rhs)
        | None =>
            match isSgAsmDirectRegisterExpression mul_rhs with
            | Some r => Some (r, mul_lhs)
            | None => None
            end
        end in
      match r_other with
      | None => Return ia
      | Some (r, other) =>
          match isSgAsmIntegerValueExpression other with
          | Some v =>
              match index_reg ia with
              | Some _ => Return ia
              | None => Next (mkIA (frame_pointer_reg ia) (offset_integer ia)
                                   (Some r) (Some v) (complete_ ia))
              end
          | None => Return ia
          end
      end
  | None => Next ia
  end end end.

(** The loop over [operand[0..2]], then [complete_ = true]. *)
Fixpoint classify_all (ia : X86IndirectAddress) (operand : list (option SgAsmExpression))
  : X86IndirectAddress :=
  match operand with
  | [] => mkIA (frame_pointer_reg ia) (offset_integer ia) (index_reg ia)
               (stride_integer ia) true
  | op :: rest =>
      match classify ia op with
      | Return ia' => ia'
      | Next ia' => classify_all ia' rest
      end
  end.

(** The three operands of a two-level Add, or nothing when neither side of
    [add1] is an Add. *)
Definition flatten_add (add1_lhs add1_rhs : option SgAsmExpression)
  : option (list (option SgAsmExpression)) :=
  match isSgAsmBinaryAdd add1_lhs with
  | Some (add2_lhs, add2_rhs) => Some [add2_lhs; add2_rhs; add1_rhs]
  | None =>
      match isSgAsmBinaryAdd add1_rhs with
      | Some (add2_lhs, add2_rhs) => Some [add1_lhs; add2_lhs; add2_rhs]
      | None => None
      end
  end.

(** The constructor [X86IndirectAddress(SgAsmExpression const * expr)]. *)
Definition X86IndirectAddress_new (expr : option SgAsmExpression) : X86IndirectAddress :=
  match isSgAsmMemoryReferenceExpression expr with
  | None => X86IndirectAddress_init
  | Some (address, _, _) =>
      match isSgAsmBinaryAdd address with
      | None => X86IndirectAddress_init
      | Some (add1_lhs, add1_rhs) =>
          match flatten_add add1_lhs add1_rhs with
          | None => X86IndirectAddress_init
          | Some operand => classify_all X86IndirectAddress_init operand
          end
      end
  end.

Section Unparser.

(** ROSE's register namer, a black box for this file. *)
Variable unparseX86Register : RegisterDescriptor -> string.

(** [X86IndirectAddress::emit]. Each of the four members is dereferenced. *)
Definition emit (ia : X86IndirectAddress) : outcome string :=
  match frame_pointer_reg ia, index_reg ia, stride_integer ia, offset_integer ia with
  | Some fp, Some ix, Some stride, Some off =>
      let os := "[" in
      let os := os +:+ unparseX86Register fp in
      let os := os +:+ "+" in
      let os := os +:+ unparseX86Register ix in
      let val := get_absoluteValue stride in
      let os := if negb (val =? 1)%Z then os +:+ "*" +:+ Fmt.hex val else os in
      let neg := sign_bit off in
      let offset := get_signedValue off in
      let os := os +:+ (if neg then "-" else "+") in
      let os := os +:+ "0x" +:+ Fmt.hex (u64 (if neg then - offset else offset)) in
      Ok (os +:+ "]")
  | _, _, _, _ => Err NullDereference
  end.

(** [masm_unparseX86Expression(expr, insn, leaMode, labels)] below the null
    test. [insn] is only passed along and is left out. *)
Fixpoint masm_unparseX86Expression_at
    (expr : SgAsmExpression) (leaMode : bool) (labels : option RoseLabelMap)
    {struct expr} : outcome string :=
  let sub (e : option SgAsmExpression) (labels' : option RoseLabelMap) :=
    match e with
    | None => Ok "BOGUS:NULL"
    | Some e' => masm_unparseX86Expression_at e' false labels'
    end in
  match expr with
  | V_SgAsmBinaryAdd lhs rhs =>
      do lstr <- sub lhs labels;
      do rstr <- sub rhs labels;
      if Ascii.eqb (Fmt.front rstr) "-" then Ok (lstr +:+ rstr)
      else Ok (lstr +:+ "+" +:+ rstr)
  | V_SgAsmBinarySubtract lhs rhs =>
      do lstr <- sub lhs labels;
      do rstr <- sub rhs labels;
      Ok (lstr +:+ "-" +:+ rstr)
  | V_SgAsmBinaryMultiply lhs rhs =>
      do lstr <- sub lhs labels;
      do rstr <- sub rhs labels;
      Ok (lstr +:+ "*" +:+ rstr)
  | V_SgAsmMemoryReferenceExpression address segexpr type =>
      let ia := X86IndirectAddress_new (Some expr) in
      if complete_ ia then emit ia
      else
        do result <-
          (if negb leaMode then
             let ambiguous := false in
             do result <-
               (if ambiguous : bool
                then do name <- masm_x86TypeToPtrName type; Ok (name +:+ " ptr ")
                else Ok "");
             match segexpr with
             | Some _ =>
                 do segreg <- sub segexpr None;
                 if String.eqb segreg "fs" then Ok (result +:+ segreg +:+ ":")
                 else Ok result
             | None => Ok result
             end
           else Ok "");
        do addr <- sub address labels;
        Ok (result +:+ "[" +:+ addr +:+ "]")
  | V_SgAsmDirectRegisterExpression descriptor =>
      Ok (unparseX86Register descriptor)
  | V_SgAsmIndirectRegisterExpression _ index =>
      Ok ("(" +:+ Fmt.dec (u64 index) +:+ ")")
  | V_SgAsmIntegerValueExpression int_expr =>
      unparse_integer_value int_expr labels
  | V_Other class_name =>
      Err (UnhandledExpressionKind class_name)
  end.

Definition masm_unparseX86Expression
    (expr : option SgAsmExpression) (leaMode : bool) (labels : option RoseLabelMap)
  : outcome string :=
  match expr with
  | None => Ok "BOGUS:NULL"
  | Some e => masm_unparseX86Expression_at e leaMode labels
  end.

End Unparser.

(** ** debug_opcode_bytes *)

Definition debug_opcode_bytes (data : list Byte.byte) (max_bytes : nat) : string :=
  let n := length data in
  let n := if (max_bytes <? n)%nat then max_bytes else n in
  let result :=
    fold_left (fun result b => result +:+ Fmt.hex_byte (Z.of_N (Byte.to_N b)))
              (firstn n data) "" in
  if (max_bytes <? length data)%nat then result +:+ "+" else result.

(** ** Concrete inputs for the examples *)

Module Sample.

Definition eax : RegisterDescriptor := mkReg 2 0 0 32.
Definition ecx : RegisterDescriptor := mkReg 2 1 0 32.
Definition edx : RegisterDescriptor := mkReg 2 2 0 32.
Definition fs : RegisterDescriptor := mkReg 4 4 0 16.

(** A namer for the registers above; the real one is ROSE's. *)
Definition names (r : RegisterDescriptor) : string :=
  match reg_major r, reg_minor r with
  | 2%N, 0%N => "eax"
  | 2%N, 1%N => "ecx"
  | 2%N, 2%N => "edx"
  | 4%N, 4%N => "fs"
  | _, _ => "?"
  end.

Definition reg (r : RegisterDescriptor) : option SgAsmExpression :=
  Some (V_SgAsmDirectRegisterExpression r).
Definition int (bits v : Z) : option SgAsmExpression :=
  Some (V_SgAsmIntegerValueExpression (mkInt bits v)).
Definition add (l r : option SgAsmExpression) : option SgAsmExpression :=
  Some (V_SgAsmBinaryAdd l r).
Definition sub (l r : option SgAsmExpression) : option SgAsmExpression :=
  Some (V_SgAsmBinarySubtract l r).
Definition mul (l r : option SgAsmExpression) : option SgAsmExpression :=
  Some (V_SgAsmBinaryMultiply l r).
Definition mem (a : option SgAsmExpression) : option SgAsmExpression :=
  Some (V_SgAsmMemoryReferenceExpression a None None).

Definition render (e : option SgAsmExpression) : outcome string :=
  masm_unparseX86Expression names e false None.

(** Label maps: one name, an empty name, a name of 64 characters, and a
    map with the key 0. *)
Definition one_label : RoseLabelMap := {[ 0x401000 := "start" ]}.
Definition empty_name : RoseLabelMap := {[ 0x401000 := "" ]}.
Definition long_name : RoseLabelMap :=
  {[ 0x401000 :=
       "aaaaaaaaaaaaaaaaaaaaaaaaaaaaaaaaaaaaaaaaaaaaaaaaaaaaaaaaaaaaaaaa" ]}.
Definition zero_key : RoseLabelMap := {[ 0 := "null" ]}.

(** [eax + ecx*4 - 8] in the grouping (R + X*S) + D. *)
Definition indexed : option SgAsmExpression :=
  mem (add (add (reg eax) (mul (reg ecx) (int 8 4))) (int 32 (2 ^ 32 - 8))).

(** [(eax + ecx*4) + (edx - 1)]: the third operand has none of the shapes. *)
Definition no_displacement : option SgAsmExpression :=
  mem (add (add (reg eax) (mul (reg ecx) (int 8 4))) (sub (reg edx) (int 8 1))).

End Sample.


(** ** Reference renderings, written from the specification *)

(** The numeral of an integer literal of width [bits] and pattern [v]: a
    minus sign and the two's-complement magnitude when the sign bit is set
    and the value with the sign bit cleared is non-zero, the unsigned form
    otherwise. *)
Definition sign_magnitude_numeral (bits v : Z) : string :=
  if Z.testbit v (bits - 1) && nonzero (Z.clearbit v (bits - 1))
  then "-0x" +:+ Fmt.hex (2 ^ bits - v)
  else Fmt.alt_hex v.

(** The canonical text of [base + index*scale + displacement]. *)
Definition canonical_address (namer : RegisterDescriptor -> string)
    (base index : RegisterDescriptor) (scale disp : SgAsmIntegerValueExpression)
  : string :=
  "[" +:+ namer base +:+ "+" +:+ namer index
  +:+ (if (get_absoluteValue scale =? 1)%Z then ""
       else "*" +:+ Fmt.hex (get_absoluteValue scale))
  +:+ (if sign_bit disp then "-" else "+")
  +:+ "0x" +:+ Fmt.hex (Z.abs (get_signedValue disp))
  +:+ "]".

(** The role of one operand of the flattened Add: a bare register is a base
    candidate, a bare literal a displacement candidate, a Multiply of one
    register and one literal (either order) an index-and-scale candidate.
    [BadMul] is any other Multiply, [Unclassified] any other operand. *)
Inductive shape : Type :=
| IsReg (r : RegisterDescriptor)
| IsInt (v : SgAsmIntegerValueExpression)
| IsMul (r : RegisterDescriptor) (v : SgAsmIntegerValueExpression)
| BadMul
| Unclassified.

Definition shape_of (op : option SgAsmExpression) : shape :=
  match op with
  | Some (V_SgAsmDirectRegisterExpression r) => IsReg r
  | Some (V_SgAsmIntegerValueExpression v) => IsInt v
  | Some (V_SgAsmBinaryMultiply
            (Some (V_SgAsmDirectRegisterExpression r))
            (Some (V_SgAsmIntegerValueExpression v))) => IsMul r v
  | Some (V_SgAsmBinaryMultiply
            (Some (V_SgAsmIntegerValueExpression v))
            (Some (V_SgAsmDirectRegisterExpression r))) => IsMul r v
  | Some (V_SgAsmBinaryMultiply _ _) => BadMul
  | _ => Unclassified
  end.

(** The variants [masm_unparseX86Expression] has a case for. *)
Definition handled_kind (e : SgAsmExpression) : bool :=
  match e with
  | V_Other _ => false
  | _ => true
  end.

Definition class_name_of (e : SgAsmExpression) : string :=
  match e with
  | V_SgAsmBinaryAdd _ _ => "SgAsmBinaryAdd"
  | V_SgAsmBinarySubtract _ _ => "SgAsmBinarySubtract"
  | V_SgAsmBinaryMultiply _ _ => "SgAsmBinaryMultiply"
  | V_SgAsmMemoryReferenceExpression _ _ _ => "SgAsmMemoryReferenceExpression"
  | V_SgAsmDirectRegisterExpression _ => "SgAsmDirectRegisterExpression"
  | V_SgAsmIndirectRegisterExpression _ _ => "SgAsmIndirectRegisterExpression"
  | V_SgAsmIntegerValueExpression _ => "SgAsmIntegerValueExpression"
  | V_Other name => name
  end.

(** ** Operands with their enclosing instruction *)

(** The kind of an x86 instruction, as far as the unparser asks: whether it
    is [x86_lea]. *)
Inductive X86InstructionKind : Type :=
| x86_lea
| x86_other_kind (kind : Z).

Definition is_x86_lea (k : X86InstructionKind) : bool :=
  match k with
  | x86_lea => true
  | x86_other_kind _ => false
  end.

(** An ancestor of an expression in the AST: an x86 instruction or any other
    node (an operand list, an instruction of another family, ...). *)
Inductive SgNode : Type :=
| Node_SgAsmX86Instruction (kind : X86InstructionKind)
| Node_other.

(** A top-level operand: the expression with the chain of its
    [get_parent()] ancestors, nearest first. *)
Record Operand : Type := mkOperand {
  op_expr : SgAsmExpression;
  op_parents : list SgNode
}.

(** The loop [for (node = expr; !insn && node; node = node->get_parent())]:
    the expression itself is no instruction, so the search is over its
    ancestors and stops at the first x86 instruction. *)
Fixpoint enclosing_insn (parents : list SgNode) : option X86InstructionKind :=
  match parents with
  | [] => None
  | Node_SgAsmX86Instruction kind :: _ => Some kind
  | Node_other :: rest => enclosing_insn rest
  end.

(** An instruction, as [debug_instruction] reads it. *)
Record SgAsmInstruction : Type := mkInsn {
  isSgAsmX86Instruction : bool;
  get_address : Z;
  get_mnemonic : string;
  get_operandList : list (option Operand);
  get_rawBytes : list Byte.byte
}.

(** A statement of a basic block: an instruction or something else. *)
Inductive SgAsmStatement : Type :=
| Stmt_SgAsmInstruction (inst : SgAsmInstruction)
| Stmt_other.

(** A basic block, as [debug_function] reads it. *)
Record SgAsmBlock : Type := mkBlock {
  reasonString : string;
  isSgAsmStaticData : bool;
  get_statementList : list SgAsmStatement
}.

(** ** Text helpers of the listing *)

(** The newline character. *)
Definition newline : string := String (ascii_of_nat 10) "".

(** "%-9s" and the like: left-justified in a field of at least [width]. *)
Definition pad_right (width : nat) (s : string) : string :=
  s +:+ string_of_list_ascii (repeat " "%char (width - String.length s)).

(** "%0llX": upper-case hexadecimal (the 0 flag has no width to fill). *)
Definition hex_upper (v : Z) : string := Fmt.utoa 16 16 true v "".

(** [snprintf(buffer, cap, ...)] followed by reading [buffer]: the formatted
    [text] cut to [cap - 1] characters. *)
Definition snprintf (cap : nat) (text : string) : string :=
  String.substring 0 (cap - 1) text.

Section Listing.

Variable unparseX86Register : RegisterDescriptor -> string.
(** ROSE's generic operand unparser and instruction unparser, and pharos'
    [addr_str]: black boxes for this file. *)
Variable unparseExpression : option Operand -> option RoseLabelMap -> string.
Variable unparseInstruction : SgAsmInstruction -> string.
Variable addr_str : Z -> string.

(** [masm_unparseX86Expression(expr, labels)], the two-argument overload. *)
Definition masm_unparseX86Expression_operand
    (expr : option Operand) (labels : option RoseLabelMap) : outcome string :=
  match expr with
  | None => Ok "?"
  | Some op =>
      match enclosing_insn (op_parents op) with
      | Some kind =>
          masm_unparseX86Expression unparseX86Register
            (Some (op_expr op)) (is_x86_lea kind) labels
      | None => Ok "?"
      end
  end.

(** [masm_unparseExpression]: [insn] is null or an instruction. *)
Definition masm_unparseExpression
    (insn : option SgAsmInstruction) (expr : option Operand)
    (labels : option RoseLabelMap) : outcome string :=
  match insn with
  | Some i =>
      if isSgAsmX86Instruction i
      then masm_unparseX86Expression_operand expr labels
      else Ok (unparseExpression expr labels)
  | None => Ok (unparseExpression expr labels)
  end.

(** The operand loop of [debug_instruction]: each operand's text, with ", "
    after every operand but the last. *)
Fixpoint append_operands
    (elist : list (option Operand)) (labels : option RoseLabelMap)
    (opstr : string) : outcome string :=
  match elist with
  | [] => Ok opstr
  | exp :: rest =>
      do text <- masm_unparseX86Expression_operand exp labels;
      let opstr := opstr +:+ Fmt.c_str text in
      let opstr := match rest with
                   | [] => opstr
                   | _ :: _ => opstr +:+ ", "
                   end in
      append_operands rest labels opstr
  end.

Definition opcode_bytes_suffix (inst : SgAsmInstruction) (max_bytes : nat) : string :=
  if (0 <? max_bytes)%nat
  then " ; BYTES: " +:+ debug_opcode_bytes (get_rawBytes inst) max_bytes
  else "".

Definition debug_instruction
    (inst : option SgAsmInstruction) (max_bytes : nat)
    (labels : option RoseLabelMap) : outcome string :=
  match inst with
  | None => Ok "NULL!"
  | Some inst =>
      if negb (isSgAsmX86Instruction inst) then
        let opbytes := opcode_bytes_suffix inst max_bytes in
        Ok (addr_str (get_address inst) +:+ " " +:+ unparseInstruction inst
            +:+ opbytes)
      else
        do opstr <- append_operands (get_operandList inst) labels "";
        let opbytes := opcode_bytes_suffix inst max_bytes in
        let buffer :=
          snprintf 512
            (hex_upper (u64 (get_address inst)) +:+ ": "
             +:+ pad_right 9 (Fmt.c_str (get_mnemonic inst)) +:+ " "
             +:+ Fmt.c_str opstr) in
        Ok (buffer +:+ opbytes)
  end.

(** How [debug_function] can stop: a failed [assert], or a failure of the
    unparser below it. *)
Inductive listing_failure : Type :=
| AssertionFailed
| UnparseFailed (f : failure).

Inductive listing : Type :=
| Listing (text : string)
| Aborted (why : listing_failure).

(** The statement loop of one block. *)
Fixpoint debug_statements
    (stmts : list SgAsmStatement) (max_bytes : nat)
    (labels : option RoseLabelMap) (result : string) : listing :=
  match stmts with
  | [] => Listing result
  | Stmt_other :: _ => Aborted AssertionFailed
  | Stmt_SgAsmInstruction inst :: rest =>
      match debug_instruction (Some inst) max_bytes labels with
      | Err f => Aborted (UnparseFailed f)
      | Ok line =>
          debug_statements rest max_bytes labels (result +:+ line +:+ newline)
      end
  end.

(** The loop of [debug_function] over the vertices in flow order; a vertex
    whose node is not a block is [None]. *)
Fixpoint debug_function_loop
    (vertices : list (option SgAsmBlock)) (max_bytes : nat)
    (basic_block_lines show_reasons : bool) (labels : option RoseLabelMap)
    (result : string) : listing :=
  match vertices with
  | [] => Listing result
  | None :: _ => Aborted AssertionFailed
  | Some blk :: rest =>
      let result :=
        if show_reasons
        then result +:+ "; block reason: " +:+ reasonString blk +:+ newline
        else result in
      let result :=
        if isSgAsmStaticData blk
        then result +:+ "; hey, this block is static data!" +:+ newline
        else result in
      match debug_statements (get_statementList blk) max_bytes labels result with
      | Aborted why => Aborted why
      | Listing result =>
          let result := if basic_block_lines then result +:+ newline else result in
          debug_function_loop rest max_bytes basic_block_lines show_reasons
            labels result
      end
  end.

(** [debug_function]; [vertices] is [fd->get_vertices_in_flow_order(cfg)]. *)
Definition debug_function
    (vertices : list (option SgAsmBlock)) (max_bytes : nat)
    (basic_block_lines show_reasons : bool) (labels : option RoseLabelMap)
  : listing :=
  debug_function_loop vertices max_bytes basic_block_lines show_reasons labels "".

End Listing.

(** ** More reference definitions *)

(** The number of candidates for each role among the operands. *)
Definition count_reg (shapes : list shape) : nat :=
  List.length (List.filter (fun s => match s with IsReg _ => true | _ => false end) shapes).
Definition count_int (shapes : list shape) : nat :=
  List.length (List.filter (fun s => match s with IsInt _ => true | _ => false end) shapes).
Definition count_mul (shapes : list shape) : nat :=
  List.length (List.filter (fun s => match s with IsMul _ _ => true | _ => false end) shapes).
Definition count_bad (shapes : list shape) : nat :=
  List.length (List.filter (fun s => match s with BadMul => true | _ => false end) shapes).

(** Whether a node of the given kind occurs in an expression. *)
Fixpoint has_other (e : SgAsmExpression) : bool :=
  let sub (o : option SgAsmExpression) :=
    match o with None => false | Some e' => has_other e' end in
  match e with
  | V_SgAsmBinaryAdd l r | V_SgAsmBinarySubtract l r | V_SgAsmBinaryMultiply l r =>
      sub l || sub r
  | V_SgAsmMemoryReferenceExpression a s _ => sub a || sub s
  | V_Other _ => true
  | _ => false
  end.

Fixpoint has_memory_reference (e : SgAsmExpression) : bool :=
  let sub (o : option SgAsmExpression) :=
    match o with None => false | Some e' => has_memory_reference e' end in
  match e with
  | V_SgAsmBinaryAdd l r | V_SgAsmBinarySubtract l r | V_SgAsmBinaryMultiply l r =>
      sub l || sub r
  | V_SgAsmMemoryReferenceExpression _ _ _ => true
  | _ => false
  end.

(** Reading a byte dump back: pairs of hexadecimal digits up to the end or
    to the first character that is no digit pair. *)
Fixpoint parse_dump (s : string) : list Z :=
  match s with
  | String hi (String lo rest) =>
      if Fmt.is_upper_hex hi && Fmt.is_upper_hex lo
      then (Fmt.digit_value hi * 16 + Fmt.digit_value lo) :: parse_dump rest
      else []
  | _ => []
  end.

(** A property of every node below an operand pointer (none when null). *)
Definition opt_all (P : SgAsmExpression -> Prop) (o : option SgAsmExpression) : Prop :=
  match o with
  | None => True
  | Some e => P e
  end.

(** The number of nodes of an expression. *)
Fixpoint expr_size (e : SgAsmExpression) : nat :=
  let sub (o : option SgAsmExpression) :=
    match o with None => O | Some e' => expr_size e' end in
  match e with
  | V_SgAsmBinaryAdd l r | V_SgAsmBinarySubtract l r | V_SgAsmBinaryMultiply l r =>
      S (sub l + sub r)
  | V_SgAsmMemoryReferenceExpression a s _ => S (sub a + sub s)
  | _ => 1%nat
  end.

(** What must hold of the input when the unparser fails with [f]. *)
Definition failure_cause
    (f : failure) (e : SgAsmExpression) (labels : option RoseLabelMap) : Prop :=
  match f with
  | UnhandledExpressionKind _ => has_other e = true
  | NullDereference => has_memory_reference e = true
  | BufferOverrun => labels <> None
  | UnhandledType => False
  end.





(** A listing with [acc] put before its text. *)
Definition prepend (acc : string) (l : listing) : listing :=
  match l with
  | Listing text => Listing (acc +:+ text)
  | Aborted why => Aborted why
  end.

(** The value of a byte of the raw encoding. *)
Definition byte_value (b : Byte.byte) : Z := Z.of_N (Byte.to_N b).

(** More concrete inputs. *)
Module SampleListing.
Import Sample.

Definition in_mov (e : option SgAsmExpression) : option Operand :=
  match e with
  | Some e' => Some (mkOperand e' [Node_other; Node_SgAsmX86Instruction (x86_other_kind 1)])
  | None => None
  end.

Definition in_lea (e : option SgAsmExpression) : option Operand :=
  match e with
  | Some e' => Some (mkOperand e' [Node_other; Node_SgAsmX86Instruction x86_lea])
  | None => None
  end.

(** [mov [eax+ecx*4-0x8], edx] at 0x401000, encoded in four bytes. *)
Definition mov_insn : SgAsmInstruction :=
  mkInsn true 0x401000 "mov" [in_mov indexed; in_mov (reg edx)]
         [Byte.x89; Byte.x54; Byte.x88; Byte.xf8].

Definition bad_insn : SgAsmInstruction :=
  mkInsn true 0x401004 "mov" [in_mov (reg eax); in_mov (Some (V_Other "SgAsmRiscOperation"))]
         [Byte.x90].

Definition generic_unparse (_ : option Operand) (_ : option RoseLabelMap) : string :=
  "<operand>".
Definition generic_insn (_ : SgAsmInstruction) : string := "<insn>".
Definition hex_addr (a : Z) : string := "0x" +:+ hex_upper a.

Definition show_insn (i : SgAsmInstruction) (max_bytes : nat) : outcome string :=
  debug_instruction names generic_insn hex_addr (Some i) max_bytes None.

Definition block1 : SgAsmBlock :=
  mkBlock "entry point" false [Stmt_SgAsmInstruction mov_insn].

Definition list_function (vertices : list (option SgAsmBlock)) : listing :=
  debug_function names generic_insn hex_addr vertices 0 true true None.

(** [[eax-0x8]], which the recogniser does not accept, with segment [fs]. *)
Definition fs_reference : SgAsmExpression :=
  V_SgAsmMemoryReferenceExpression
    (add (reg eax) (int 32 (2 ^ 32 - 8))) (reg fs) None.

(** [eax*4 + (ecx - 1)]: an expression without memory reference. *)
Definition arithmetic : SgAsmExpression :=
  V_SgAsmBinaryAdd (mul (reg eax) (int 8 4)) (sub (reg ecx) (int 8 1)).

(** Four vectors of two 32-bit integers. *)
Definition nested_vector : SgAsmType :=
  SgAsmVectorType 4 (Some (SgAsmVectorType 2 (Some (SgAsmIntegerType 32 false)))).

(** Two unsigned 64-bit integers in a vector object of their own, and four
    of ROSE's registered vectors of two unsigned 64-bit integers. *)
Definition plain_u64x2 : SgAsmType :=
  SgAsmVectorType 2 (Some (SgAsmIntegerType 64 false)).
Definition four_dqwords : SgAsmType :=
  SgAsmVectorType 4 (Some SgAsmVectorType_2xU64).

End SampleListing.

(** * Properties *)

(** ** Facts about the number formatting *)

Module FmtFacts.
Import Fmt.

Example hex_samples :
  hex 0 = "0" /\ hex 255 = "ff" /\ hex (two64 - 1) = "ffffffffffffffff"
  /\ alt_hex 0 = "0" /\ alt_hex 128 = "0x80" /\ dec 1234 = "1234"
  /\ hex_byte 10 = "0A" /\ hex_byte 255 = "FF".
Proof. repeat split; reflexivity. Qed.

(** A boolean property checked on the sixteen digits holds of every digit. *)
Lemma digit_range_check (P : Z -> bool) :
  forallb P (map Z.of_nat (seq 0 16)) = true ->
  forall d, 0 <= d < 16 -> P d = true.
Proof.
  intros Hall d Hd.
  rewrite forallb_forall in Hall. apply Hall.
  replace d with (Z.of_nat (Z.to_nat d)) by lia.
  apply in_map, in_seq. lia.
Qed.

Lemma digit_value_char upper d :
  0 <= d < 16 -> digit_value (digit_char upper d) = d.
Proof.
  intros Hd.
  apply Z.eqb_eq.
  apply (digit_range_check (fun d => digit_value (digit_char upper d) =? d));
    [destruct upper; vm_compute; reflexivity | exact Hd].
Qed.

Lemma digit_char_lower d : 0 <= d < 16 -> is_lower_hex (digit_char false d) = true.
Proof.
  apply (digit_range_check (fun d => is_lower_hex (digit_char false d))).
  vm_compute; reflexivity.
Qed.

Lemma digit_char_upper d : 0 <= d < 16 -> is_upper_hex (digit_char true d) = true.
Proof.
  apply (digit_range_check (fun d => is_upper_hex (digit_char true d))).
  vm_compute; reflexivity.
Qed.

Lemma digit_char_not_zero upper d :
  0 < d < 16 -> digit_char upper d <> "0"%char.
Proof.
  intros Hd Heq.
  assert (digit_value (digit_char upper d) = d) as Hv
    by (apply digit_value_char; lia).
  rewrite Heq in Hv. vm_compute in Hv. lia.
Qed.

Section Base.
Variable base : Z.
Hypothesis base_range : 2 <= base <= 16.

Lemma utoa_length fuel upper n acc :
  (String.length (utoa fuel base upper n acc) <= fuel + String.length acc)%nat.
Proof.
  revert n acc. induction fuel as [|fuel IH]; intros n acc; simpl.
  - lia.
  - destruct (n / base =? 0).
    + simpl. lia.
    + specialize (IH (n / base) (String (digit_char upper (n mod base)) acc)).
      simpl in IH. lia.
Qed.

Lemma utoa_all_chars (p : ascii -> bool) fuel upper n acc :
  (forall d, 0 <= d < 16 -> p (digit_char upper d) = true) ->
  all_chars p acc = true ->
  all_chars p (utoa fuel base upper n acc) = true.
Proof.
  intros Hp. revert n acc. induction fuel as [|fuel IH]; intros n acc Hacc; simpl.
  - exact Hacc.
  - assert (all_chars p (String (digit_char upper (n mod base)) acc) = true) as H1.
    { simpl. rewrite Hacc, Hp; [reflexivity|].
      pose proof (Z.mod_pos_bound n base). lia. }
    destruct (n / base =? 0); [exact H1 | apply IH, H1].
Qed.

(** The first character printed is a nonzero digit: no leading zero. *)
Lemma utoa_front fuel upper n acc :
  0 < n < base ^ Z.of_nat fuel ->
  exists d, 0 < d < base /\ front (utoa fuel base upper n acc) = digit_char upper d.
Proof.
  revert n acc. induction fuel as [|fuel IH]; intros n acc Hn.
  - simpl in Hn. lia.
  - simpl. destruct (n / base =? 0) eqn:Hq.
    + apply Z.eqb_eq in Hq.
      exists (n mod base). split; [|reflexivity].
      pose proof (Z.mod_pos_bound n base).
      pose proof (Z.div_mod n base). nia.
    + apply Z.eqb_neq in Hq.
      apply IH.
      rewrite Nat2Z.inj_succ, Z.pow_succ_r in Hn by lia.
      split.
      * pose proof (Z.div_pos n base). lia.
      * apply Z.div_lt_upper_bound; lia.
Qed.

(** Reading the printed digits back gives the number. *)
Lemma utoa_value fuel upper n acc :
  0 <= n < base ^ Z.of_nat fuel -> (0 < fuel)%nat ->
  value_of base (utoa fuel base upper n acc) 0 = value_of base acc n.
Proof.
  revert n acc. induction fuel as [|fuel IH]; intros n acc Hn Hf; [lia|].
  simpl.
  pose proof (Z.mod_pos_bound n base) as Hm.
  pose proof (Z.div_mod n base) as Hdm.
  assert (digit_value (digit_char upper (n mod base)) = n mod base) as Hdv
    by (apply digit_value_char; lia).
  destruct (n / base =? 0) eqn:Hq.
  - apply Z.eqb_eq in Hq. simpl. rewrite Hdv. f_equal. nia.
  - apply Z.eqb_neq in Hq.
    rewrite Nat2Z.inj_succ, Z.pow_succ_r in Hn by lia.
    rewrite IH.
    + simpl. rewrite Hdv. f_equal. lia.
    + split; [apply Z.div_pos; lia | apply Z.div_lt_upper_bound; lia].
    + destruct fuel; [|lia]. simpl in Hn.
      exfalso. apply Hq. apply Z.div_small. lia.
Qed.
End Base.

Lemma hex_length v : (String.length (hex v) <= 16)%nat.
Proof. unfold hex. pose proof (utoa_length 16 16 false v ""). simpl in *. lia. Qed.

Lemma hex_lower v : all_chars is_lower_hex (hex v) = true.
Proof.
  unfold hex. apply utoa_all_chars; [lia | | reflexivity].
  intros d Hd. apply digit_char_lower, Hd.
Qed.

Lemma hex_front v :
  0 < v < two64 -> front (hex v) <> "0"%char /\ hex v <> "".
Proof.
  intros Hv.
  destruct (utoa_front 16 ltac:(lia) 16 false v "") as [d [Hd Hf]].
  { change (16 ^ Z.of_nat 16) with two64. exact Hv. }
  fold (hex v) in Hf. split.
  - rewrite Hf. apply digit_char_not_zero. lia.
  - intros He. rewrite He in Hf. simpl in Hf.
    assert (digit_value (digit_char false d) = d) as Hdv
      by (apply digit_value_char; lia).
    rewrite <- Hf in Hdv. vm_compute in Hdv. lia.
Qed.

Lemma hex_value v : 0 <= v < two64 -> value_of 16 (hex v) 0 = v.
Proof.
  intros Hv. unfold hex. rewrite utoa_value; [reflexivity | lia | | lia].
  change (16 ^ Z.of_nat 16) with two64. exact Hv.
Qed.

Lemma alt_hex_length v : (String.length (alt_hex v) <= 18)%nat.
Proof.
  unfold alt_hex. destruct (v =? 0); [simpl; lia|].
  change (String.length ("0x" +:+ hex v)) with (S (S (String.length (hex v)))).
  pose proof (hex_length v). lia.
Qed.

Lemma sprintf_fits cap text :
  (String.length text < cap)%nat -> sprintf cap text = Ok text.
Proof.
  intros H. unfold sprintf.
  destruct (Nat.ltb_spec (String.length text) cap); [reflexivity | lia].
Qed.

Lemma sprintf_alt_hex v : sprintf 64 (alt_hex v) = Ok (alt_hex v).
Proof. apply sprintf_fits. pose proof (alt_hex_length v). lia. Qed.

Lemma sprintf_neg_alt_hex v :
  sprintf 64 ("-" +:+ alt_hex v) = Ok ("-" +:+ alt_hex v).
Proof.
  apply sprintf_fits.
  change (String.length ("-" +:+ alt_hex v)) with (S (String.length (alt_hex v))).
  pose proof (alt_hex_length v). lia.
Qed.

End FmtFacts.

(** ** Facts about 64-bit arithmetic and bit masks *)

Section Bits.

Lemma nonzero_true x : nonzero x = true <-> x <> 0.
Proof. unfold nonzero. destruct (Z.eqb_spec x 0); simpl; split; congruence. Qed.

Lemma land_pow2 v k :
  0 <= k -> Z.land v (2 ^ k) = if Z.testbit v k then 2 ^ k else 0.
Proof.
  intros Hk. apply Z.bits_inj'. intros n Hn.
  rewrite Z.land_spec, Z.pow2_bits_eqb by lia.
  destruct (Z.eqb_spec k n) as [->|Hne].
  - destruct (Z.testbit v n) eqn:Hb; simpl.
    + rewrite Z.pow2_bits_true by lia. reflexivity.
    + rewrite Z.bits_0. reflexivity.
  - rewrite andb_false_r.
    destruct (Z.testbit v k).
    + rewrite Z.pow2_bits_false by lia. reflexivity.
    + rewrite Z.bits_0. reflexivity.
Qed.

Lemma nonzero_land_pow2 v k :
  0 <= k -> nonzero (Z.land v (2 ^ k)) = Z.testbit v k.
Proof.
  intros Hk. rewrite land_pow2 by lia.
  assert (0 < 2 ^ k) by (apply Z.pow_pos_nonneg; lia).
  destruct (Z.testbit v k); unfold nonzero.
  - destruct (Z.eqb_spec (2 ^ k) 0); [lia | reflexivity].
  - reflexivity.
Qed.

Lemma land_low_mask v k : 0 <= k -> Z.land v (2 ^ k - 1) = v mod 2 ^ k.
Proof.
  intros Hk. rewrite <- Z.land_ones by lia.
  rewrite Z.ones_equiv. reflexivity.
Qed.

Lemma testbit_top v b :
  1 <= b -> 0 <= v < 2 ^ b -> Z.testbit v (b - 1) = (2 ^ (b - 1) <=? v).
Proof.
  intros Hb Hv.
  rewrite Z.testbit_eqb by lia.
  replace (2 ^ b) with (2 * 2 ^ (b - 1)) in Hv
    by (rewrite <- Z.pow_succ_r by lia; f_equal; lia).
  assert (0 < 2 ^ (b - 1)) by (apply Z.pow_pos_nonneg; lia).
  destruct (Z.leb_spec (2 ^ (b - 1)) v).
  - assert (v / 2 ^ (b - 1) = 1) as ->; [|reflexivity].
    symmetry. apply (Z.div_unique v (2 ^ (b - 1)) 1 (v - 2 ^ (b - 1))); lia.
  - rewrite Z.div_small by lia. reflexivity.
Qed.

Lemma clearbit_top v b :
  1 <= b -> 0 <= v < 2 ^ b -> Z.clearbit v (b - 1) = v mod 2 ^ (b - 1).
Proof.
  intros Hb Hv. apply Z.bits_inj'. intros n Hn.
  rewrite Z.clearbit_eqb by lia.
  destruct (Z.ltb_spec n (b - 1)).
  - rewrite Z.mod_pow2_bits_low by lia.
    destruct (Z.eqb_spec (b - 1) n); [lia|]. apply andb_true_r.
  - rewrite Z.mod_pow2_bits_high by lia.
    destruct (Z.eqb_spec (b - 1) n); [apply andb_false_r|].
    rewrite <- (Z.mod_small v (2 ^ b)) by lia.
    rewrite Z.mod_pow2_bits_high by lia. reflexivity.
Qed.

Lemma neg64_spec v : neg64 v = (- v) mod two64.
Proof.
  unfold neg64, not64, u64.
  rewrite Z.add_mod_idemp_l by (unfold two64; lia).
  f_equal. unfold Z.lnot. lia.
Qed.

Lemma neg64_masked v b :
  1 <= b <= 64 -> 0 < v < 2 ^ b ->
  Z.land (neg64 v) (2 ^ b - 1) = 2 ^ b - v.
Proof.
  intros Hb Hv.
  rewrite land_low_mask, neg64_spec by lia.
  assert (two64 = 2 ^ (64 - b) * 2 ^ b) as Hsplit.
  { unfold two64. rewrite <- Z.pow_add_r by lia. f_equal. lia. }
  assert (0 < 2 ^ (64 - b)) by (apply Z.pow_pos_nonneg; lia).
  rewrite Hsplit, Z.mul_comm.
  rewrite Z.rem_mul_r by lia. 
  rewrite Z.mul_comm, Z.mod_add by lia.
  rewrite Z.mod_mod by lia.
  symmetry. apply (Z.mod_unique (- v) (2 ^ b) (-1)); lia.
Qed.

Lemma u64_small x : 0 <= x < two64 -> u64 x = x.
Proof. intros H. unfold u64. apply Z.mod_small. exact H. Qed.

Lemma pow2_le_two64 b : 0 <= b <= 64 -> 2 ^ b <= two64.
Proof. intros H. unfold two64. apply Z.pow_le_mono_r; lia. Qed.

End Bits.

(** ** Integer literals *)

Section IntegerValue.
Import Fmt FmtFacts.

Lemma getAsmConstant_wf iv : wf_int iv -> getAsmConstant iv = bitVector iv.
Proof.
  intros [Hb Hv]. unfold getAsmConstant, get_absoluteValue.
  rewrite (Z.mod_small (bitVector iv)) by lia.
  apply u64_small. pose proof (pow2_le_two64 (significantBits iv)). lia.
Qed.

(** The sign test and the two formats, for any width [b] up to 64, with
    the masks written as powers of two. *)
Lemma numeral_core b v :
  1 <= b <= 64 -> 0 <= v < 2 ^ b ->
  (if nonzero (Z.land v (2 ^ (b - 1))) && nonzero (Z.land v (2 ^ (b - 1) - 1))
   then sprintf 64 ("-" +:+ alt_hex (Z.land (neg64 v) (2 ^ b - 1)))
   else sprintf 64 (alt_hex v))
  = Ok (sign_magnitude_numeral b v).
Proof.
  intros Hb Hv. unfold sign_magnitude_numeral.
  rewrite nonzero_land_pow2, land_low_mask by lia.
  rewrite (clearbit_top v b) by lia.
  destruct (Z.testbit v (b - 1) && nonzero (v mod 2 ^ (b - 1))) eqn:Hneg.
  - apply andb_true_iff in Hneg. destruct Hneg as [_ Hlow].
    apply nonzero_true in Hlow.
    assert (0 < v) as Hpos.
    { destruct (Z.eq_dec v 0) as [->|]; [|lia].
      rewrite Z.mod_0_l in Hlow; [congruence|].
      apply Z.pow_nonzero; lia. }
    rewrite sprintf_neg_alt_hex, neg64_masked by lia.
    unfold alt_hex. destruct (Z.eqb_spec (2 ^ b - v) 0); [lia | reflexivity].
  - apply sprintf_alt_hex.
Qed.

Lemma neg64_full v : Z.land (neg64 v) (2 ^ 64 - 1) = neg64 v.
Proof.
  rewrite land_low_mask by lia. unfold neg64.
  apply Z.mod_small. apply Z.mod_pos_bound. reflexivity.
Qed.

(** Every literal of width 8, 16, 32 or 64 that no label replaces is
    rendered as its sign-and-magnitude numeral. *)
Lemma unparse_integer_value_numeral iv labels :
  wf_int iv ->
  significantBits iv = 8 \/ significantBits iv = 16
  \/ ((significantBits iv = 32 \/ significantBits iv = 64)
      /\ masm_x86ValToLabel (bitVector iv) labels = "") ->
  unparse_integer_value iv labels
  = Ok (sign_magnitude_numeral (significantBits iv) (bitVector iv)).
Proof.
  intros Hwf Hbits.
  pose proof (getAsmConstant_wf iv Hwf) as Hv.
  destruct Hwf as [Hb Hr].
  unfold unparse_integer_value, get_significantBits. rewrite Hv.
  destruct Hbits as [E | [E | [[E | E] Hlab]]]; rewrite E in *; simpl Z.eqb; cbv iota.
  - apply (numeral_core 8); lia.
  - apply (numeral_core 16); lia.
  - rewrite Hlab. simpl negb. cbv iota. apply (numeral_core 32); lia.
  - rewrite Hlab. simpl negb. cbv iota.
    rewrite <- (neg64_full (bitVector iv)).
    apply (numeral_core 64); lia.
Qed.

(** The label lookup gives the empty string for the value zero and when
    there is no map. *)
Lemma masm_x86ValToLabel_zero labels : masm_x86ValToLabel 0 labels = "".
Proof. reflexivity. Qed.

Lemma masm_x86ValToLabel_null val : masm_x86ValToLabel val None = "".
Proof. unfold masm_x86ValToLabel. destruct (val =? 0); reflexivity. Qed.

Lemma masm_x86ValToLabel_found val (m : RoseLabelMap) name :
  val <> 0 -> m !! val = Some name -> masm_x86ValToLabel val (Some m) = name.
Proof.
  intros Hnz Hm. unfold masm_x86ValToLabel.
  destruct (Z.eqb_spec val 0); [contradiction|]. rewrite Hm. reflexivity.
Qed.

End IntegerValue.

Section IntegerValueClaims.
Import Fmt FmtFacts.
Variable namer : RegisterDescriptor -> string.

(** C4. An 8-bit or 16-bit literal is printed as a minus sign, "0x" and the
    two's-complement magnitude exactly when its sign bit is set and the
    value with the sign bit cleared is non-zero; otherwise it is printed in
    the unsigned form. So the 8-bit 0x80 is "0x80" and 0x81 is "-0x7f". *)
Theorem small_literal_sign_rule iv leaMode labels :
  wf_int iv ->
  significantBits iv = 8 \/ significantBits iv = 16 ->
  masm_unparseX86Expression namer
    (Some (V_SgAsmIntegerValueExpression iv)) leaMode labels
  = Ok (if sign_bit iv
           && nonzero (Z.clearbit (bitVector iv) (significantBits iv - 1))
        then "-0x" +:+ hex (2 ^ significantBits iv - bitVector iv)
        else alt_hex (bitVector iv)).
Proof.
  intros Hwf Hbits. simpl.
  rewrite unparse_integer_value_numeral by tauto.
  reflexivity.
Qed.

(** C10. A literal whose width is none of 8, 16, 32 and 64 is rendered as
    the empty string, whatever the label map is, and the call succeeds. *)
Theorem other_width_literal_is_empty iv leaMode labels :
  significantBits iv <> 8 -> significantBits iv <> 16 ->
  significantBits iv <> 32 -> significantBits iv <> 64 ->
  masm_unparseX86Expression namer
    (Some (V_SgAsmIntegerValueExpression iv)) leaMode labels
  = Ok "".
Proof.
  intros H8 H16 H32 H64. simpl.
  unfold unparse_integer_value, get_significantBits.
  destruct (Z.eqb_spec (significantBits iv) 8); [contradiction|].
  destruct (Z.eqb_spec (significantBits iv) 16); [contradiction|].
  destruct (Z.eqb_spec (significantBits iv) 32); [contradiction|].
  destruct (Z.eqb_spec (significantBits iv) 64); [contradiction|].
  reflexivity.
Qed.

(** C5, amended. For a 32-bit or 64-bit literal: when its value is a
    nonzero key of the label map and the mapped name is not empty, has no
    NUL character and is shorter than 64 characters, the rendered text is
    that name; when its value is 0 the numeral "0" is rendered, whatever
    the map holds; and without a map the numeral is rendered. *)
Theorem label_precedence iv leaMode labels :
  wf_int iv ->
  significantBits iv = 32 \/ significantBits iv = 64 ->
  let rendered :=
    masm_unparseX86Expression namer
      (Some (V_SgAsmIntegerValueExpression iv)) leaMode labels in
  (forall (m : RoseLabelMap) name,
      labels = Some m -> bitVector iv <> 0 -> m !! bitVector iv = Some name ->
      name <> "" -> c_str name = name -> (String.length name < 64)%nat ->
      rendered = Ok name)
  /\ (bitVector iv = 0 -> rendered = Ok "0")
  /\ (labels = None ->
      rendered = Ok (sign_magnitude_numeral (significantBits iv) (bitVector iv))).
Proof.
  intros Hwf Hbits rendered. subst rendered. simpl.
  split; [|split].
  - intros m name -> Hnz Hm Hne Hc Hlen.
    unfold unparse_integer_value, get_significantBits.
    rewrite (getAsmConstant_wf iv Hwf).
    rewrite (masm_x86ValToLabel_found _ m name Hnz Hm).
    assert (String.eqb name "" = false) as ->
      by (apply String.eqb_neq; exact Hne).
    rewrite Hc, (sprintf_fits 64 name Hlen).
    destruct Hbits as [-> | ->]; reflexivity.
  - intros Hz.
    rewrite unparse_integer_value_numeral; [|exact Hwf|].
    + rewrite Hz. unfold sign_magnitude_numeral.
      rewrite Z.bits_0. reflexivity.
    + right; right. split; [exact Hbits|]. rewrite Hz. reflexivity.
  - intros ->.
    apply unparse_integer_value_numeral; [exact Hwf|].
    right; right. split; [exact Hbits | apply masm_x86ValToLabel_null].
Qed.

(** C6, amended. A literal of width 8, 16, 32 or 64 that no label replaces
    is rendered as "0" when its value is zero, and otherwise as "0x" (or
    "-0x" for the negative form) followed by the lower-case hexadecimal
    digits of the magnitude, the first digit not being "0". *)
Theorem numeral_shape iv leaMode labels :
  wf_int iv ->
  significantBits iv = 8 \/ significantBits iv = 16
  \/ ((significantBits iv = 32 \/ significantBits iv = 64)
      /\ masm_x86ValToLabel (bitVector iv) labels = "") ->
  let negative :=
    sign_bit iv && nonzero (Z.clearbit (bitVector iv) (significantBits iv - 1)) in
  let magnitude :=
    if negative then 2 ^ significantBits iv - bitVector iv else bitVector iv in
  masm_unparseX86Expression namer
    (Some (V_SgAsmIntegerValueExpression iv)) leaMode labels
  = Ok (if bitVector iv =? 0 then "0"
        else (if negative then "-0x" else "0x") +:+ hex magnitude)
  /\ (bitVector iv = 0 -> negative = false)
  /\ (bitVector iv <> 0 ->
      0 < magnitude < 2 ^ significantBits iv
      /\ all_chars is_lower_hex (hex magnitude) = true
      /\ front (hex magnitude) <> "0"%char
      /\ hex magnitude <> ""
      /\ value_of 16 (hex magnitude) 0 = magnitude).
Proof.
  intros Hwf Hbits negative magnitude.
  cbn [masm_unparseX86Expression masm_unparseX86Expression_at].
  rewrite unparse_integer_value_numeral by assumption.
  destruct Hwf as [Hb Hv].
  pose proof (pow2_le_two64 (significantBits iv) ltac:(lia)) as Hle.
  assert (bitVector iv = 0 -> negative = false) as Hzero.
  { intros E. subst negative. rewrite E. unfold Z.clearbit.
    rewrite Z.ldiff_0_l. apply andb_false_r. }
  assert (bitVector iv <> 0 -> 0 < magnitude < 2 ^ significantBits iv) as Hrange.
  { intros Hnz. subst magnitude. destruct negative; lia. }
  split; [|split; [exact Hzero|]].
  - unfold sign_magnitude_numeral. fold (sign_bit iv). fold negative.
    destruct (Z.eqb_spec (bitVector iv) 0) as [Hz|Hnz].
    + rewrite (Hzero Hz). unfold alt_hex. rewrite Hz. reflexivity.
    + subst magnitude. destruct negative; [reflexivity|].
      unfold alt_hex. destruct (Z.eqb_spec (bitVector iv) 0); [contradiction|].
      reflexivity.
  - intros Hnz. specialize (Hrange Hnz).
    assert (0 < magnitude < two64) as Hm by lia.
    split; [exact Hrange|]. split; [apply hex_lower|].
    split; [apply hex_front, Hm|]. split; [apply hex_front, Hm|].
    apply hex_value. lia.
Qed.

End IntegerValueClaims.

(** ** Facts about strings *)

Section Strings.
Import Fmt.

Lemma append_assoc (a b c : string) : (a +:+ b) +:+ c = a +:+ (b +:+ c).
Proof.
  induction a as [|ch a IH]; [reflexivity|].
  change (String ch ((a +:+ b) +:+ c) = String ch (a +:+ (b +:+ c))).
  f_equal. exact IH.
Qed.

Lemma append_nil_r (a : string) : a +:+ "" = a.
Proof.
  induction a as [|ch a IH]; [reflexivity|].
  change (String ch (a +:+ "") = String ch a).
  f_equal. exact IH.
Qed.

Lemma append_length (a b : string) :
  String.length (a +:+ b) = (String.length a + String.length b)%nat.
Proof.
  induction a as [|ch a IH]; [reflexivity|].
  change (S (String.length (a +:+ b)) = S (String.length a + String.length b)).
  f_equal. exact IH.
Qed.

Lemma all_chars_append p (a b : string) :
  all_chars p (a +:+ b) = all_chars p a && all_chars p b.
Proof.
  induction a as [|ch a IH]; [reflexivity|].
  change (p ch && all_chars p (a +:+ b) = p ch && all_chars p a && all_chars p b).
  rewrite <- andb_assoc. f_equal. exact IH.
Qed.

End Strings.

(** ** The indexed-address recogniser *)

Section Matcher.
Import Fmt FmtFacts.
Variable namer : RegisterDescriptor -> string.

Lemma two64_val : two64 = 18446744073709551616.
Proof. reflexivity. Qed.

Lemma s64_small x : - 2 ^ 63 <= x < 2 ^ 63 -> s64 x = x.
Proof.
  intros Hx. unfold s64, u64. rewrite two64_val.
  change (2 ^ 63) with 9223372036854775808 in *.
  destruct (Z.ltb_spec (x mod 18446744073709551616) 9223372036854775808);
    Z.div_mod_to_equations; lia.
Qed.

(** The value [emit] prints after "0x" is the absolute value of the
    displacement, and its sign character follows the displacement's sign. *)
Lemma displacement_magnitude d :
  wf_int d ->
  u64 (if sign_bit d then - get_signedValue d else get_signedValue d)
  = Z.abs (get_signedValue d)
  /\ (sign_bit d = true <-> get_signedValue d < 0).
Proof.
  intros [Hb Hv].
  unfold get_signedValue, sign_bit.
  rewrite (Z.mod_small (bitVector d)) by lia.
  rewrite testbit_top by lia.
  assert (2 ^ significantBits d = 2 * 2 ^ (significantBits d - 1)) as Hdouble
    by (rewrite <- Z.pow_succ_r by lia; f_equal; lia).
  assert (0 < 2 ^ (significantBits d - 1) <= 2 ^ 63) as Hhalf
    by (split; [apply Z.pow_pos_nonneg; lia | apply Z.pow_le_mono_r; lia]).
  assert (2 ^ 63 < two64) as H63 by reflexivity.
  destruct (Z.leb_spec (2 ^ (significantBits d - 1)) (bitVector d)).
  - rewrite s64_small by lia. split.
    + rewrite u64_small by lia. lia.
    + split; [lia | reflexivity].
  - rewrite s64_small by lia. split.
    + rewrite u64_small by lia. lia.
    + split; [discriminate | lia].
Qed.

Lemma emit_canonical r x s d c :
  wf_int d ->
  emit namer (mkIA (Some r) (Some d) (Some x) (Some s) c)
  = Ok (canonical_address namer r x s d).
Proof.
  intros Hwf. unfold emit, canonical_address. cbn [frame_pointer_reg index_reg
    stride_integer offset_integer].
  destruct (displacement_magnitude d Hwf) as [-> _].
  f_equal.
  destruct (get_absoluteValue s =? 1); cbn [negb];
    rewrite ?append_assoc; reflexivity.
Qed.

Lemma emit_of_fields ia r x s d :
  frame_pointer_reg ia = Some r -> index_reg ia = Some x ->
  stride_integer ia = Some s -> offset_integer ia = Some d ->
  wf_int d ->
  emit namer ia = Ok (canonical_address namer r x s d).
Proof.
  destruct ia as [fp off ix st c]. simpl.
  intros -> -> -> -> Hwf. apply emit_canonical, Hwf.
Qed.

Lemma emit_missing_field ia :
  frame_pointer_reg ia = None \/ index_reg ia = None
  \/ stride_integer ia = None \/ offset_integer ia = None ->
  emit namer ia = Err NullDereference.
Proof.
  destruct ia as [[fp|] [off|] [ix|] [st|] c]; simpl;
    intros [H | [H | [H | H]]]; try discriminate; reflexivity.
Qed.

(** A memory reference the recogniser accepts is rendered by [emit]. *)
Lemma unparse_matched address segexpr type leaMode labels :
  let expr := V_SgAsmMemoryReferenceExpression address segexpr type in
  complete_ (X86IndirectAddress_new (Some expr)) = true ->
  masm_unparseX86Expression_at namer expr leaMode labels
  = emit namer (X86IndirectAddress_new (Some expr)).
Proof.
  intros expr Hc. subst expr.
  cbn -[X86IndirectAddress_new emit]. rewrite Hc. reflexivity.
Qed.

Lemma complete_is_memory_reference expr :
  complete_ (X86IndirectAddress_new (Some expr)) = true ->
  exists address segexpr type,
    expr = V_SgAsmMemoryReferenceExpression address segexpr type.
Proof.
  destruct expr; simpl; try discriminate.
  intros _. eauto.
Qed.

(** One pass of the loop, by the role of the operand: a second candidate
    for a role and a malformed Multiply leave the constructor, an operand
    with no role is passed over. *)
Lemma classify_by_shape ia op :
  classify ia op
  = match shape_of op with
    | IsReg r =>
        match frame_pointer_reg ia with
        | Some _ => Return ia
        | None => Next (mkIA (Some r) (offset_integer ia) (index_reg ia)
                             (stride_integer ia) (complete_ ia))
        end
    | IsInt v =>
        match offset_integer ia with
        | Some _ => Return ia
        | None => Next (mkIA (frame_pointer_reg ia) (Some v) (index_reg ia)
                             (stride_integer ia) (complete_ ia))
        end
    | IsMul r v =>
        match index_reg ia with
        | Some _ => Return ia
        | None => Next (mkIA (frame_pointer_reg ia) (offset_integer ia)
                             (Some r) (Some v) (complete_ ia))
        end
    | BadMul => Return ia
    | Unclassified => Next ia
    end.
Proof.
  destruct op as [[l r|l r|l r|a sg t|d|d i|v|k]|]; try reflexivity.
  destruct l as [[]|], r as [[]|]; reflexivity.
Qed.

(** When every operand has a role, an accepted address has exactly the
    three roles: the recogniser is right on such inputs. *)
Lemma complete_with_roles a b c :
  let ia := classify_all X86IndirectAddress_init [a; b; c] in
  shape_of a <> Unclassified -> shape_of b <> Unclassified ->
  shape_of c <> Unclassified ->
  complete_ ia = true ->
  exists r x s d,
    frame_pointer_reg ia = Some r /\ index_reg ia = Some x
    /\ stride_integer ia = Some s /\ offset_integer ia = Some d
    /\ In (IsReg r) [shape_of a; shape_of b; shape_of c]
    /\ In (IsMul x s) [shape_of a; shape_of b; shape_of c]
    /\ In (IsInt d) [shape_of a; shape_of b; shape_of c].
Proof.
  cbn [classify_all]. rewrite (classify_by_shape _ a).
  destruct (shape_of a); cbn; intros Ha; try contradiction;
    try (intros; discriminate);
    rewrite (classify_by_shape _ b);
    destruct (shape_of b); cbn; intros Hb; try contradiction;
    try (intros; discriminate);
    rewrite (classify_by_shape _ c);
    destruct (shape_of c); cbn; intros Hc; try contradiction;
    try (intros; discriminate);
    intros _; do 4 eexists; repeat split; auto 6.
Qed.

(** The four groupings of base, index*scale and displacement give the same
    recognised object. *)
Lemma four_groupings_same_object r x s d segexpr type :
  let R := Some (V_SgAsmDirectRegisterExpression r) in
  let XS := Some (V_SgAsmBinaryMultiply
                    (Some (V_SgAsmDirectRegisterExpression x))
                    (Some (V_SgAsmIntegerValueExpression s))) in
  let D := Some (V_SgAsmIntegerValueExpression d) in
  let add a b := Some (V_SgAsmBinaryAdd a b) in
  let mem a := Some (V_SgAsmMemoryReferenceExpression a segexpr type) in
  let ia := mkIA (Some r) (Some d) (Some x) (Some s) true in
  X86IndirectAddress_new (mem (add (add R XS) D)) = ia
  /\ X86IndirectAddress_new (mem (add (add R D) XS)) = ia
  /\ X86IndirectAddress_new (mem (add R (add XS D))) = ia
  /\ X86IndirectAddress_new (mem (add D (add R XS))) = ia.
Proof. repeat split; reflexivity. Qed.

End Matcher.

Section UnparserClaims.
Import Fmt FmtFacts.
Variable namer : RegisterDescriptor -> string.

(** C1 (the code departs from it). The recogniser is meant to accept only
    a base register, an index*scale product and a displacement. Its loop
    skips an operand that is none of the three shapes, so the address
    [(R + X*S) + (l - r)] is accepted with no displacement recorded, and
    rendering it dereferences the missing [offset_integer]. *)
Theorem matcher_accepts_missing_role r x s l rr segexpr type leaMode labels :
  let R := Some (V_SgAsmDirectRegisterExpression r) in
  let XS := Some (V_SgAsmBinaryMultiply
                    (Some (V_SgAsmDirectRegisterExpression x))
                    (Some (V_SgAsmIntegerValueExpression s))) in
  let other := Some (V_SgAsmBinarySubtract l rr) in
  let expr := Some (V_SgAsmMemoryReferenceExpression
                      (Some (V_SgAsmBinaryAdd (Some (V_SgAsmBinaryAdd R XS)) other))
                      segexpr type) in
  complete_ (X86IndirectAddress_new expr) = true
  /\ offset_integer (X86IndirectAddress_new expr) = None
  /\ masm_unparseX86Expression namer expr leaMode labels = Err NullDereference.
Proof.
  intros R XS other expr. subst R XS other expr.
  split; [reflexivity|]. split; [reflexivity|].
  unfold masm_unparseX86Expression.
  rewrite unparse_matched by reflexivity.
  apply emit_missing_field. right; right; right. reflexivity.
Qed.

(** C2. For every base register R, index register X, scale S and
    displacement D, the memory references whose address is grouped as
    (R+X*S)+D, (R+D)+X*S, R+(X*S+D) and D+(R+X*S) are rendered alike, and
    the text is the canonical [R+X*S+-0xD] form. *)
Theorem groupings_render_alike r x s d segexpr type leaMode labels :
  let R := Some (V_SgAsmDirectRegisterExpression r) in
  let XS := Some (V_SgAsmBinaryMultiply
                    (Some (V_SgAsmDirectRegisterExpression x))
                    (Some (V_SgAsmIntegerValueExpression s))) in
  let D := Some (V_SgAsmIntegerValueExpression d) in
  let add a b := Some (V_SgAsmBinaryAdd a b) in
  let render a :=
    masm_unparseX86Expression namer
      (Some (V_SgAsmMemoryReferenceExpression a segexpr type)) leaMode labels in
  render (add (add R XS) D) = render (add (add R D) XS)
  /\ render (add (add R D) XS) = render (add R (add XS D))
  /\ render (add R (add XS D)) = render (add D (add R XS))
  /\ (exists text, render (add (add R XS) D) = Ok text)
  /\ (wf_int d ->
      render (add (add R XS) D) = Ok (canonical_address namer r x s d)).
Proof.
  intros R XS D add render.
  pose proof (four_groupings_same_object r x s d segexpr type)
    as (H1 & H2 & H3 & H4).
  assert (forall a,
             X86IndirectAddress_new
               (Some (V_SgAsmMemoryReferenceExpression a segexpr type))
             = mkIA (Some r) (Some d) (Some x) (Some s) true ->
             render a = emit namer (mkIA (Some r) (Some d) (Some x) (Some s) true))
    as Hrender.
  { intros a Ha. subst render. unfold masm_unparseX86Expression.
    rewrite unparse_matched by (rewrite Ha; reflexivity).
    rewrite Ha. reflexivity. }
  apply Hrender in H1, H2, H3, H4.
  change (render (add (add R XS) D)
          = emit namer (mkIA (Some r) (Some d) (Some x) (Some s) true)) in H1.
  change (render (add (add R D) XS)
          = emit namer (mkIA (Some r) (Some d) (Some x) (Some s) true)) in H2.
  change (render (add R (add XS D))
          = emit namer (mkIA (Some r) (Some d) (Some x) (Some s) true)) in H3.
  change (render (add D (add R XS))
          = emit namer (mkIA (Some r) (Some d) (Some x) (Some s) true)) in H4.
  rewrite H1, H2, H3, H4.
  repeat split; try reflexivity.
  - eexists. reflexivity.
  - apply emit_canonical.
Qed.

(** C3, amended. When the recogniser accepts a memory reference with base R,
    index X, scale S and displacement D, the text is "[R+X", then "*" and S
    in lower-case hexadecimal without prefix only when S is not 1, then "-"
    or "+" by the sign bit of D's own width, then "0x" and the absolute
    value of D in hexadecimal, then "]". *)
Theorem matched_address_text expr r x s d leaMode labels :
  complete_ (X86IndirectAddress_new (Some expr)) = true ->
  frame_pointer_reg (X86IndirectAddress_new (Some expr)) = Some r ->
  index_reg (X86IndirectAddress_new (Some expr)) = Some x ->
  stride_integer (X86IndirectAddress_new (Some expr)) = Some s ->
  offset_integer (X86IndirectAddress_new (Some expr)) = Some d ->
  wf_int d ->
  masm_unparseX86Expression namer (Some expr) leaMode labels
  = Ok ("[" +:+ namer r +:+ "+" +:+ namer x
        +:+ (if (get_absoluteValue s =? 1)%Z then ""
             else "*" +:+ hex (get_absoluteValue s))
        +:+ (if sign_bit d then "-" else "+")
        +:+ "0x" +:+ hex (Z.abs (get_signedValue d))
        +:+ "]").
Proof.
  intros Hc Hfp Hix Hst Hoff Hwf.
  destruct (complete_is_memory_reference expr Hc) as (a & sg & ty & ->).
  unfold masm_unparseX86Expression.
  rewrite unparse_matched by exact Hc.
  apply (emit_of_fields namer _ r x s d); assumption.
Qed.

(** C8. An expression whose variant is none of the handled kinds makes the
    unparser fail with the unhandled-kind condition; no text is returned
    for it. *)
Theorem unsupported_kind_is_fatal expr leaMode labels :
  handled_kind expr = false ->
  masm_unparseX86Expression namer (Some expr) leaMode labels
  = Err (UnhandledExpressionKind (class_name_of expr))
  /\ forall text,
      masm_unparseX86Expression namer (Some expr) leaMode labels <> Ok text.
Proof.
  intros Hk. destruct expr; try discriminate.
  split; [reflexivity | intros text; discriminate].
Qed.

(** An unhandled node below a binary operator fails the whole call. *)
Lemma unsupported_operand_is_fatal lhs k leaMode labels :
  exists f,
    masm_unparseX86Expression namer
      (Some (V_SgAsmBinaryAdd lhs (Some (V_Other k)))) leaMode labels = Err f.
Proof.
  simpl.
  destruct lhs as [e|]; simpl.
  - destruct (masm_unparseX86Expression_at namer e false labels); simpl; eauto.
  - eauto.
Qed.

(** C9. A null expression is rendered as the text "BOGUS:NULL"; the call
    succeeds, also for a null operand below an operator. *)
Theorem null_expression_sentinel leaMode labels :
  masm_unparseX86Expression namer None leaMode labels = Ok "BOGUS:NULL"
  /\ masm_unparseX86Expression namer
       (Some (V_SgAsmBinarySubtract None None)) leaMode labels
     = Ok "BOGUS:NULL-BOGUS:NULL".
Proof. split; reflexivity. Qed.

End UnparserClaims.

(** ** The opcode byte dump *)

Section ByteDump.
Import Fmt FmtFacts.

Lemma hex_byte_shape (b : Byte.byte) :
  String.length (hex_byte (Z.of_N (Byte.to_N b))) = 2%nat
  /\ all_chars is_upper_hex (hex_byte (Z.of_N (Byte.to_N b))) = true.
Proof.
  split; [reflexivity|].
  pose proof (Byte.to_N_bounded b) as Hb.
  set (v := Z.of_N (Byte.to_N b)).
  assert (0 <= v < 256) as Hv by (subst v; lia).
  unfold hex_byte. simpl.
  rewrite !digit_char_upper; [reflexivity | |].
  - apply Z.mod_pos_bound. lia.
  - split; [apply Z.div_pos; lia | apply Z.div_lt_upper_bound; lia].
Qed.

Lemma dump_loop_shape (l : list Byte.byte) (acc : string) :
  let out :=
    fold_left (fun result b => result +:+ hex_byte (Z.of_N (Byte.to_N b))) l acc in
  String.length out = (String.length acc + 2 * length l)%nat
  /\ (all_chars is_upper_hex acc = true -> all_chars is_upper_hex out = true).
Proof.
  revert acc. induction l as [|b l IH]; intros acc; simpl.
  - split; [lia | auto].
  - destruct (IH (acc +:+ hex_byte (Z.of_N (Byte.to_N b)))) as [Hlen Hall].
    destruct (hex_byte_shape b) as [Hb2 Hbh].
    split.
    + rewrite Hlen, append_length, Hb2. lia.
    + intros Hacc. apply Hall.
      rewrite all_chars_append, Hacc, Hbh. reflexivity.
Qed.

(** C7. The dump of [N] bytes with maximum [M] is [2 * min N M] hexadecimal
    characters, followed by "+" when [N > M] and by nothing when [N <= M];
    so no "+" appears unless the bytes were truncated. *)
Theorem debug_opcode_bytes_shape (data : list Byte.byte) (max_bytes : nat) :
  exists digits,
    String.length digits = (2 * Nat.min (length data) max_bytes)%nat
    /\ all_chars is_upper_hex digits = true
    /\ debug_opcode_bytes data max_bytes
       = (if (max_bytes <? length data)%nat then digits +:+ "+" else digits).
Proof.
  unfold debug_opcode_bytes.
  set (n := if (max_bytes <? length data)%nat then max_bytes else length data).
  destruct (dump_loop_shape (firstn n data) "") as [Hlen Hall].
  eexists. split; [|split; [|reflexivity]].
  - rewrite Hlen, length_firstn. simpl. subst n.
    destruct (Nat.ltb_spec max_bytes (length data)); lia.
  - apply Hall. reflexivity.
Qed.

End ByteDump.

(** ** The properties at concrete inputs *)

Section Concrete.
Import Sample Fmt.

Example render_indexed : render indexed = Ok "[eax+ecx*4-0x8]".
Proof. reflexivity. Qed.

Example render_scale_one :
  render (mem (add (reg eax) (add (mul (reg ecx) (int 8 1)) (int 8 0x10))))
  = Ok "[eax+ecx+0x10]".
Proof. reflexivity. Qed.

Example render_scale_sixteen :
  render (mem (add (add (reg eax) (int 32 8)) (mul (int 8 16) (reg ecx))))
  = Ok "[eax+ecx*10+0x8]".
Proof. reflexivity. Qed.

Example render_unmatched :
  render (mem (add (reg eax) (int 32 (2 ^ 32 - 8)))) = Ok "[eax-0x8]"
  /\ render (Some (V_SgAsmMemoryReferenceExpression (reg eax) (reg fs) None))
     = Ok "fs:[eax]".
Proof. split; reflexivity. Qed.

Example render_no_displacement :
  complete_ (X86IndirectAddress_new no_displacement) = true
  /\ render no_displacement = Err NullDereference.
Proof. split; reflexivity. Qed.

Example render_long_label :
  masm_unparseX86Expression names (int 32 0x401000) false (Some long_name)
  = Err BufferOverrun.
Proof. vm_compute. reflexivity. Qed.

Example dump_samples :
  debug_opcode_bytes [Byte.x8b; Byte.x45; Byte.xfc] 2 = "8B45+"
  /\ debug_opcode_bytes [Byte.x8b; Byte.x45; Byte.xfc] 3 = "8B45FC"
  /\ debug_opcode_bytes [Byte.x8b; Byte.x45; Byte.xfc] 8 = "8B45FC"
  /\ debug_opcode_bytes [Byte.x8b] 0 = "+".
Proof. repeat split; reflexivity. Qed.

Lemma wf_int_sample bits v :
  (1 <=? bits) && (bits <=? 64) && (0 <=? v) && (v <? 2 ^ bits) = true ->
  wf_int (mkInt bits v).
Proof.
  intros H. unfold wf_int. simpl.
  repeat (apply andb_true_iff in H; destruct H as [H ?]). lia.
Defined.

Lemma small_literal_sign_rule_witness :
  wf_int (mkInt 8 0x81) /\ wf_int (mkInt 8 0x80)
  /\ render (int 8 0x81) = Ok "-0x7f"
  /\ render (int 8 0x80) = Ok "0x80"
  /\ render (int 16 0xfffe) = Ok "-0x2".
Proof.
  split; [apply wf_int_sample; reflexivity|].
  split; [apply wf_int_sample; reflexivity|].
  split; [|split].
  - apply (small_literal_sign_rule names (mkInt 8 0x81) false None);
      [apply wf_int_sample; reflexivity | left; reflexivity].
  - apply (small_literal_sign_rule names (mkInt 8 0x80) false None);
      [apply wf_int_sample; reflexivity | left; reflexivity].
  - apply (small_literal_sign_rule names (mkInt 16 0xfffe) false None);
      [apply wf_int_sample; reflexivity | right; reflexivity].
Defined.

Lemma other_width_literal_is_empty_witness :
  (12 <> 8 /\ 12 <> 16 /\ 12 <> 32 /\ 12 <> 64)
  /\ masm_unparseX86Expression names (int 12 5) false (Some one_label) = Ok "".
Proof.
  split; [repeat split; discriminate|].
  apply (other_width_literal_is_empty names (mkInt 12 5) false (Some one_label));
    discriminate.
Defined.

Lemma label_precedence_witness :
  wf_int (mkInt 32 0x401000)
  /\ one_label !! 0x401000 = Some "start"
  /\ masm_unparseX86Expression names (int 32 0x401000) false (Some one_label)
     = Ok "start"
  /\ masm_unparseX86Expression names (int 64 0) false (Some zero_key) = Ok "0"
  /\ masm_unparseX86Expression names (int 32 0x401000) false None
     = Ok "0x401000".
Proof.
  split; [apply wf_int_sample; reflexivity|].
  split; [reflexivity|].
  split; [|split].
  - apply (proj1 (label_precedence names (mkInt 32 0x401000) false (Some one_label)
                    (wf_int_sample 32 0x401000 eq_refl) (or_introl eq_refl))
             one_label "start");
      [reflexivity | discriminate | reflexivity | discriminate | reflexivity
      | simpl; lia].
  - apply (proj1 (proj2 (label_precedence names (mkInt 64 0) false (Some zero_key)
                           (wf_int_sample 64 0 eq_refl) (or_intror eq_refl)))).
    reflexivity.
  - apply (proj2 (proj2 (label_precedence names (mkInt 32 0x401000) false None
                           (wf_int_sample 32 0x401000 eq_refl) (or_introl eq_refl)))).
    reflexivity.
Defined.

(** C5 as stated fails: 0x401000 is a nonzero key of the map, its name is
    the empty string, and the literal is rendered as a numeral. *)
Lemma label_precedence_counterexample :
  empty_name !! 0x401000 = Some ""
  /\ 0x401000 <> 0
  /\ masm_unparseX86Expression names (int 32 0x401000) false (Some empty_name)
     = Ok "0x401000"
  /\ masm_unparseX86Expression names (int 32 0x401000) false (Some empty_name)
     <> Ok "".
Proof.
  split; [reflexivity|]. split; [discriminate|].
  split; [vm_compute; reflexivity | vm_compute; discriminate].
Qed.

Lemma numeral_shape_witness :
  wf_int (mkInt 32 (2 ^ 32 - 8))
  /\ masm_x86ValToLabel (2 ^ 32 - 8) (Some one_label) = ""
  /\ masm_unparseX86Expression names (int 32 (2 ^ 32 - 8)) false (Some one_label)
     = Ok "-0x8"
  /\ masm_unparseX86Expression names (int 8 0) false (Some one_label) = Ok "0"
  /\ masm_unparseX86Expression names (int 16 0x1234) false None = Ok "0x1234".
Proof.
  split; [apply wf_int_sample; reflexivity|].
  split; [reflexivity|].
  split; [|split].
  - exact (proj1 (numeral_shape names (mkInt 32 (2 ^ 32 - 8)) false (Some one_label)
                    (wf_int_sample 32 (2 ^ 32 - 8) eq_refl)
                    (or_intror (or_intror (conj (or_introl eq_refl) eq_refl))))).
  - exact (proj1 (numeral_shape names (mkInt 8 0) false (Some one_label)
                    (wf_int_sample 8 0 eq_refl) (or_introl eq_refl))).
  - exact (proj1 (numeral_shape names (mkInt 16 0x1234) false None
                    (wf_int_sample 16 0x1234 eq_refl)
                    (or_intror (or_introl eq_refl)))).
Defined.

(** C6 as stated fails: the 8-bit literal 0 is not negative, and it is
    rendered as "0", which does not start with "0x". *)
Lemma numeral_shape_counterexample :
  render (int 8 0) = Ok "0"
  /\ String.prefix "0x" "0" = false
  /\ render (int 32 0) = Ok "0".
Proof. repeat split; reflexivity. Qed.

Lemma matched_address_text_witness :
  complete_ (X86IndirectAddress_new indexed) = true
  /\ wf_int (mkInt 32 (2 ^ 32 - 8))
  /\ render indexed = Ok "[eax+ecx*4-0x8]".
Proof.
  split; [reflexivity|].
  split; [apply wf_int_sample; reflexivity|].
  apply (matched_address_text names
           (V_SgAsmMemoryReferenceExpression
              (add (add (reg eax) (mul (reg ecx) (int 8 4))) (int 32 (2 ^ 32 - 8)))
              None None)
           eax ecx (mkInt 8 4) (mkInt 32 (2 ^ 32 - 8)) false None);
    try reflexivity.
  apply wf_int_sample; reflexivity.
Defined.

(** C3 as stated fails: an accepted address with the scale 16 has the
    scale printed as "10", the hexadecimal digits, and not as "16". *)
Lemma matched_address_text_counterexample :
  complete_ (X86IndirectAddress_new
               (mem (add (add (reg eax) (mul (reg ecx) (int 8 16))) (int 32 8))))
  = true
  /\ get_absoluteValue (mkInt 8 16) = 16
  /\ dec 16 = "16"
  /\ render (mem (add (add (reg eax) (mul (reg ecx) (int 8 16))) (int 32 8)))
     = Ok "[eax+ecx*10+0x8]"
  /\ render (mem (add (add (reg eax) (mul (reg ecx) (int 8 16))) (int 32 8)))
     <> Ok "[eax+ecx*16+0x8]".
Proof.
  split; [reflexivity|]. split; [reflexivity|]. split; [reflexivity|].
  split; [reflexivity | vm_compute; discriminate].
Qed.

Lemma groupings_render_alike_witness :
  wf_int (mkInt 32 (2 ^ 32 - 8))
  /\ render (mem (add (add (reg eax) (int 32 (2 ^ 32 - 8)))
                      (mul (reg ecx) (int 8 4))))
     = render (mem (add (reg eax)
                        (add (mul (reg ecx) (int 8 4)) (int 32 (2 ^ 32 - 8)))))
  /\ render indexed = Ok "[eax+ecx*4-0x8]".
Proof.
  split; [apply wf_int_sample; reflexivity|].
  pose proof (groupings_render_alike names eax ecx (mkInt 8 4)
                (mkInt 32 (2 ^ 32 - 8)) None None false None)
    as (_ & H23 & _ & _ & Htext).
  split; [exact H23|].
  exact (Htext (wf_int_sample 32 (2 ^ 32 - 8) eq_refl)).
Defined.

Lemma unsupported_kind_is_fatal_witness :
  handled_kind (V_Other "SgAsmRiscOperation") = false
  /\ masm_unparseX86Expression names (Some (V_Other "SgAsmRiscOperation")) false None
     = Err (UnhandledExpressionKind "SgAsmRiscOperation").
Proof.
  split; [reflexivity|].
  apply (proj1 (unsupported_kind_is_fatal names (V_Other "SgAsmRiscOperation")
                  false None eq_refl)).
Defined.

End Concrete.


(** * Further properties of the code *)

(** ** The recogniser: which addresses it accepts *)

Section MatcherAcceptance.
Import Fmt FmtFacts.
Variable namer : RegisterDescriptor -> string.

Lemma classify_all_three a b c :
  classify_all X86IndirectAddress_init [a; b; c]
  = match classify X86IndirectAddress_init a with
    | Return ia => ia
    | Next ia1 =>
        match classify ia1 b with
        | Return ia => ia
        | Next ia2 =>
            match classify ia2 c with
            | Return ia => ia
            | Next ia3 => mkIA (frame_pointer_reg ia3) (offset_integer ia3)
                               (index_reg ia3) (stride_integer ia3) true
            end
        end
    end.
Proof. reflexivity. Qed.

(** X1. Three operands are accepted exactly when none is a malformed
    Multiply and each role has at most one candidate among them. *)
Theorem matcher_acceptance a b c :
  complete_ (classify_all X86IndirectAddress_init [a; b; c]) = true
  <-> (count_bad [shape_of a; shape_of b; shape_of c] = 0
       /\ count_reg [shape_of a; shape_of b; shape_of c] <= 1
       /\ count_int [shape_of a; shape_of b; shape_of c] <= 1
       /\ count_mul [shape_of a; shape_of b; shape_of c] <= 1)%nat.
Proof.
  rewrite classify_all_three.
  rewrite (classify_by_shape _ a).
  destruct (shape_of a); cbn;
    try (split; [discriminate | intros (? & ? & ? & ?); lia]);
    rewrite (classify_by_shape _ b);
    destruct (shape_of b); cbn;
    try (split; [discriminate | intros (? & ? & ? & ?); lia]);
    rewrite (classify_by_shape _ c);
    destruct (shape_of c); cbn;
    try (split; [discriminate | intros (? & ? & ? & ?); lia]);
    (split; [intros _; repeat split; lia | reflexivity]).
Qed.

(** X2. Only a memory reference whose address is an Add with an Add directly
    on one side is accepted; the operands classified are the two operands
    of the inner Add and the other side, the left inner Add being taken
    when both sides are Adds. *)
Theorem accepted_address_shape expr :
  complete_ (X86IndirectAddress_new (Some expr)) = true ->
  exists l r segexpr type a b,
    expr = V_SgAsmMemoryReferenceExpression
             (Some (V_SgAsmBinaryAdd l r)) segexpr type
    /\ ((l = Some (V_SgAsmBinaryAdd a b)
         /\ X86IndirectAddress_new (Some expr)
            = classify_all X86IndirectAddress_init [a; b; r])
        \/ (isSgAsmBinaryAdd l = None /\ r = Some (V_SgAsmBinaryAdd a b)
            /\ X86IndirectAddress_new (Some expr)
               = classify_all X86IndirectAddress_init [l; a; b])).
Proof.
  intros Hc.
  destruct expr as [| | |address sg ty| | | |]; try discriminate Hc.
  destruct address as [[l r| | | | | | |]|]; try discriminate Hc.
  unfold X86IndirectAddress_new in *. cbn [isSgAsmMemoryReferenceExpression
    isSgAsmBinaryAdd] in *.
  unfold flatten_add in *.
  destruct (isSgAsmBinaryAdd l) as [[a b]|] eqn:Hl.
  - exists l, r, sg, ty, a, b. split; [reflexivity|]. left. split; [|reflexivity].
    destruct l as [[]|]; try discriminate Hl. cbn in Hl. congruence.
  - destruct (isSgAsmBinaryAdd r) as [[a b]|] eqn:Hr; [|discriminate Hc].
    exists l, r, sg, ty, a, b. split; [reflexivity|]. right.
    split; [exact Hl|]. split; [|reflexivity].
    destruct r as [[]|]; try discriminate Hr. cbn in Hr. congruence.
Qed.

(** The six orders of three things. *)
Lemma permutation_of_three {A : Type} (a b c x y z : A) :
  Permutation [a; b; c] [x; y; z] ->
  (a = x /\ b = y /\ c = z) \/ (a = x /\ b = z /\ c = y)
  \/ (a = y /\ b = x /\ c = z) \/ (a = y /\ b = z /\ c = x)
  \/ (a = z /\ b = x /\ c = y) \/ (a = z /\ b = y /\ c = x).
Proof.
  intros H.
  assert (In a [x; y; z]) as Ha
    by (eapply Permutation_in; [exact H | left; reflexivity]).
  destruct Ha as [<- | [<- | [<- | []]]].
  - apply Permutation_cons_inv, Permutation_length_2_inv in H.
    destruct H as [H | H]; inversion H; subst; tauto.
  - apply (@Permutation_cons_app_inv A [b; c] [x] [z] y),
      Permutation_length_2_inv in H.
    destruct H as [H | H]; inversion H; subst; tauto.
  - apply (@Permutation_cons_app_inv A [b; c] [x; y] [] z),
      Permutation_length_2_inv in H.
    destruct H as [H | H]; inversion H; subst; tauto.
Qed.

(** X3. Base, index*scale (the Multiply written in either order) and
    displacement, in any of their six orders and in either grouping of the
    two Adds, are rendered as the same canonical text. *)
Theorem any_arrangement_is_canonical r x s d XS a b c segexpr type leaMode labels :
  let R := Some (V_SgAsmDirectRegisterExpression r) in
  let D := Some (V_SgAsmIntegerValueExpression d) in
  let add p q := Some (V_SgAsmBinaryAdd p q) in
  let render p :=
    masm_unparseX86Expression namer
      (Some (V_SgAsmMemoryReferenceExpression p segexpr type)) leaMode labels in
  XS = Some (V_SgAsmBinaryMultiply
               (Some (V_SgAsmDirectRegisterExpression x))
               (Some (V_SgAsmIntegerValueExpression s)))
  \/ XS = Some (V_SgAsmBinaryMultiply
                  (Some (V_SgAsmIntegerValueExpression s))
                  (Some (V_SgAsmDirectRegisterExpression x))) ->
  Permutation [a; b; c] [R; XS; D] ->
  wf_int d ->
  render (add (add a b) c) = Ok (canonical_address namer r x s d)
  /\ render (add a (add b c)) = Ok (canonical_address namer r x s d).
Proof.
  intros R D add render HXS Hperm Hwf.
  apply permutation_of_three in Hperm.
  subst R D add render. cbv beta.
  unfold masm_unparseX86Expression.
  destruct HXS as [-> | ->];
    destruct Hperm as [(-> & -> & ->) | [(-> & -> & ->) | [(-> & -> & ->)
      | [(-> & -> & ->) | [(-> & -> & ->) | (-> & -> & ->)]]]]];
    (split;
     (rewrite unparse_matched by reflexivity;
      apply (emit_of_fields namer _ r x s d); [reflexivity .. | exact Hwf])).
Qed.

(** X4. The text of an accepted memory reference depends on the address
    alone: not on the label map (the displacement is never shown as a
    label), nor on lea mode, the segment or the type. *)
Theorem accepted_ignores_context address seg1 seg2 ty1 ty2 lea1 lea2 labels1 labels2 :
  complete_ (X86IndirectAddress_new
               (Some (V_SgAsmMemoryReferenceExpression address seg1 ty1))) = true ->
  masm_unparseX86Expression namer
    (Some (V_SgAsmMemoryReferenceExpression address seg1 ty1)) lea1 labels1
  = masm_unparseX86Expression namer
      (Some (V_SgAsmMemoryReferenceExpression address seg2 ty2)) lea2 labels2.
Proof.
  intros Hc. unfold masm_unparseX86Expression.
  rewrite !unparse_matched by exact Hc.
  reflexivity.
Qed.

(** X23. When each of the three operands has a role and the recogniser
    accepts them, the base, the index with its scale and the displacement
    it recorded are among the operands, and [emit] renders them: no member
    is missing. *)
Theorem accepted_roles_are_rendered a b c :
  shape_of a <> Unclassified -> shape_of b <> Unclassified ->
  shape_of c <> Unclassified ->
  complete_ (classify_all X86IndirectAddress_init [a; b; c]) = true ->
  exists r x s d,
    In (IsReg r) [shape_of a; shape_of b; shape_of c]
    /\ In (IsMul x s) [shape_of a; shape_of b; shape_of c]
    /\ In (IsInt d) [shape_of a; shape_of b; shape_of c]
    /\ (exists text,
          emit namer (classify_all X86IndirectAddress_init [a; b; c]) = Ok text)
    /\ (wf_int d ->
        emit namer (classify_all X86IndirectAddress_init [a; b; c])
        = Ok (canonical_address namer r x s d)).
Proof.
  intros Ha Hb Hc Hcomplete.
  destruct (complete_with_roles a b c Ha Hb Hc Hcomplete)
    as (r & x & s & d & Hfp & Hix & Hst & Hoff & Hr & Hm & Hi).
  exists r, x, s, d. repeat (split; [assumption|]). split.
  - destruct (classify_all X86IndirectAddress_init [a; b; c])
      as [fp off ix st cpl]. cbn in Hfp, Hix, Hst, Hoff. subst.
    cbn. eauto.
  - intros Hwf. apply (emit_of_fields namer _ r x s d); assumption.
Qed.

End MatcherAcceptance.

(** ** The unparser: unfolding equations and induction *)

Section UnparserEquations.
Import Fmt FmtFacts.
Variable namer : RegisterDescriptor -> string.

Lemma unparse_add l r leaMode labels :
  masm_unparseX86Expression_at namer (V_SgAsmBinaryAdd l r) leaMode labels
  = do lstr <- masm_unparseX86Expression namer l false labels;
    do rstr <- masm_unparseX86Expression namer r false labels;
    if Ascii.eqb (front rstr) "-" then Ok (lstr +:+ rstr)
    else Ok (lstr +:+ "+" +:+ rstr).
Proof. destruct l, r; reflexivity. Qed.

Lemma unparse_subtract l r leaMode labels :
  masm_unparseX86Expression_at namer (V_SgAsmBinarySubtract l r) leaMode labels
  = do lstr <- masm_unparseX86Expression namer l false labels;
    do rstr <- masm_unparseX86Expression namer r false labels;
    Ok (lstr +:+ "-" +:+ rstr).
Proof. destruct l, r; reflexivity. Qed.

Lemma unparse_multiply l r leaMode labels :
  masm_unparseX86Expression_at namer (V_SgAsmBinaryMultiply l r) leaMode labels
  = do lstr <- masm_unparseX86Expression namer l false labels;
    do rstr <- masm_unparseX86Expression namer r false labels;
    Ok (lstr +:+ "*" +:+ rstr).
Proof. destruct l, r; reflexivity. Qed.

Lemma unparse_unmatched address segexpr type leaMode labels :
  complete_ (X86IndirectAddress_new
               (Some (V_SgAsmMemoryReferenceExpression address segexpr type)))
  = false ->
  masm_unparseX86Expression_at namer
    (V_SgAsmMemoryReferenceExpression address segexpr type) leaMode labels
  = do result <-
      (if negb leaMode then
         match segexpr with
         | Some _ =>
             do segreg <- masm_unparseX86Expression namer segexpr false None;
             if String.eqb segreg "fs" then Ok ("" +:+ segreg +:+ ":") else Ok ""
         | None => Ok ""
         end
       else Ok "");
    do addr <- masm_unparseX86Expression namer address false labels;
    Ok (result +:+ "[" +:+ addr +:+ "]").
Proof.
  intros Hc. cbn -[X86IndirectAddress_new emit]. rewrite Hc.
  destruct segexpr, address, leaMode; reflexivity.
Qed.

Section Induction.
Variable P : SgAsmExpression -> Prop.
Hypothesis P_add : forall l r,
  opt_all P l -> opt_all P r -> P (V_SgAsmBinaryAdd l r).
Hypothesis P_subtract : forall l r,
  opt_all P l -> opt_all P r -> P (V_SgAsmBinarySubtract l r).
Hypothesis P_multiply : forall l r,
  opt_all P l -> opt_all P r -> P (V_SgAsmBinaryMultiply l r).
Hypothesis P_memory : forall a s t,
  opt_all P a -> opt_all P s -> P (V_SgAsmMemoryReferenceExpression a s t).
Hypothesis P_register : forall d, P (V_SgAsmDirectRegisterExpression d).
Hypothesis P_indirect : forall d i, P (V_SgAsmIndirectRegisterExpression d i).
Hypothesis P_integer : forall v, P (V_SgAsmIntegerValueExpression v).
Hypothesis P_other : forall k, P (V_Other k).

Lemma expr_induction_sized n : forall e, (expr_size e < n)%nat -> P e.
Proof.
  induction n as [|n IH]; intros e Hn; [lia|].
  assert (forall o k, (match o with None => O | Some e' => expr_size e' end <= k)%nat ->
                      (k < n)%nat -> opt_all P o) as Hsub.
  { intros [e'|] k Hk Hlt; simpl; [apply IH; lia | exact I]. }
  destruct e as [l r|l r|l r|a sg t|d|d i|v|k]; cbn [expr_size] in Hn.
  - apply P_add; eapply Hsub; try reflexivity; lia.
  - apply P_subtract; eapply Hsub; try reflexivity; lia.
  - apply P_multiply; eapply Hsub; try reflexivity; lia.
  - apply P_memory; eapply Hsub; try reflexivity; lia.
  - apply P_register.
  - apply P_indirect.
  - apply P_integer.
  - apply P_other.
Qed.

Lemma expr_induction e : P e.
Proof. apply (expr_induction_sized (S (expr_size e))). lia. Qed.

End Induction.

End UnparserEquations.

(** ** The unparser: failures, labels, segments *)

Section UnparserMore.
Import Fmt FmtFacts.
Variable namer : RegisterDescriptor -> string.

Lemma sprintf_cases cap text :
  (sprintf cap text = Ok text /\ (String.length text < cap)%nat)
  \/ (sprintf cap text = Err BufferOverrun /\ (cap <= String.length text)%nat).
Proof.
  unfold sprintf. destruct (Nat.ltb_spec (String.length text) cap); [left | right];
    split; auto.
Qed.

Lemma numeral_fits v :
  exists text, sprintf 64 (alt_hex v) = Ok text /\ (String.length text < 64)%nat.
Proof.
  exists (alt_hex v). split; [apply sprintf_alt_hex|].
  pose proof (alt_hex_length v). lia.
Qed.

Lemma negative_numeral_fits v :
  exists text,
    sprintf 64 ("-" +:+ alt_hex v) = Ok text /\ (String.length text < 64)%nat.
Proof.
  exists ("-" +:+ alt_hex v). split; [apply sprintf_neg_alt_hex|].
  change (String.length ("-" +:+ alt_hex v)) with (S (String.length (alt_hex v))).
  pose proof (alt_hex_length v). lia.
Qed.

Lemma integer_literal_outcome iv leaMode labels :
  (exists text,
      masm_unparseX86Expression namer
        (Some (V_SgAsmIntegerValueExpression iv)) leaMode labels = Ok text
      /\ (String.length text < 64)%nat)
  \/ (masm_unparseX86Expression namer
        (Some (V_SgAsmIntegerValueExpression iv)) leaMode labels = Err BufferOverrun
      /\ (significantBits iv = 32 \/ significantBits iv = 64)
      /\ (64 <= String.length
                  (c_str (masm_x86ValToLabel (getAsmConstant iv) labels)))%nat).
Proof.
  cbn [masm_unparseX86Expression masm_unparseX86Expression_at].
  unfold unparse_integer_value, get_significantBits. cbv zeta.
  destruct (Z.eqb_spec (significantBits iv) 8).
  { left. destruct (_ && _); [apply negative_numeral_fits | apply numeral_fits]. }
  destruct (Z.eqb_spec (significantBits iv) 16).
  { left. destruct (_ && _); [apply negative_numeral_fits | apply numeral_fits]. }
  destruct (Z.eqb_spec (significantBits iv) 32) as [E32|].
  { destruct (negb (masm_x86ValToLabel (getAsmConstant iv) labels =? "")%string).
    - destruct (sprintf_cases 64
                  (c_str (masm_x86ValToLabel (getAsmConstant iv) labels)))
        as [[-> Hlen] | [-> Hlen]]; [left; eauto | right; auto].
    - left. destruct (_ && _); [apply negative_numeral_fits | apply numeral_fits]. }
  destruct (Z.eqb_spec (significantBits iv) 64) as [E64|].
  { destruct (negb (masm_x86ValToLabel (getAsmConstant iv) labels =? "")%string).
    - destruct (sprintf_cases 64
                  (c_str (masm_x86ValToLabel (getAsmConstant iv) labels)))
        as [[-> Hlen] | [-> Hlen]]; [left; eauto | right; auto].
    - left. destruct (_ && _); [apply negative_numeral_fits | apply numeral_fits]. }
  left. exists "". split; [reflexivity | simpl; lia].
Qed.

(** X5. Rendering an integer literal either gives a text shorter than 64
    characters, or overruns the 64-byte buffer; the latter only for a 32-bit
    or 64-bit literal whose label has 64 characters or more. *)
Theorem integer_value_outcome iv leaMode labels :
  (exists text,
      masm_unparseX86Expression namer
        (Some (V_SgAsmIntegerValueExpression iv)) leaMode labels = Ok text
      /\ (String.length text < 64)%nat)
  \/ (masm_unparseX86Expression namer
        (Some (V_SgAsmIntegerValueExpression iv)) leaMode labels = Err BufferOverrun
      /\ (significantBits iv = 32 \/ significantBits iv = 64)
      /\ (64 <= String.length
                  (c_str (masm_x86ValToLabel (getAsmConstant iv) labels)))%nat).
Proof. apply integer_literal_outcome. Qed.

Lemma emit_outcome ia :
  (exists text, emit namer ia = Ok text) \/ emit namer ia = Err NullDereference.
Proof.
  destruct ia as [[fp|] [off|] [ix|] [st|] c]; cbn; eauto.
Qed.

Lemma failure_cause_from_operand f (child : option SgAsmExpression) e labels labels' :
  (forall c, child = Some c -> has_other c = true -> has_other e = true) ->
  (forall c, child = Some c -> has_memory_reference c = true ->
             has_memory_reference e = true) ->
  (labels' <> None -> labels <> None) ->
  opt_all (fun c => forall lea labels0 f,
               masm_unparseX86Expression_at namer c lea labels0 = Err f ->
               failure_cause f c labels0) child ->
  masm_unparseX86Expression namer child false labels' = Err f ->
  failure_cause f e labels.
Proof.
  intros Ho Hm Hl IH Herr.
  destruct child as [c|]; [|discriminate Herr].
  specialize (IH false labels' f Herr).
  destruct f; cbn [failure_cause] in *; eauto.
Qed.

Ltac operand_side :=
  auto;
  try solve [ let c := fresh "c" in
              let H := fresh "H" in
              intros c -> H; cbn; rewrite ?H; auto using orb_true_r
            | congruence ].

Lemma failure_cause_of e leaMode labels f :
  masm_unparseX86Expression_at namer e leaMode labels = Err f ->
  failure_cause f e labels.
Proof.
  revert leaMode labels f.
  induction e as [l r IHl IHr|l r IHl IHr|l r IHl IHr|a sg t IHa IHs|d|d i|v|k]
    using expr_induction; intros leaMode labels f Herr.
  - rewrite unparse_add in Herr.
    destruct (masm_unparseX86Expression namer l false labels) as [lstr|fl] eqn:El.
    + destruct (masm_unparseX86Expression namer r false labels) as [rstr|fr] eqn:Er.
      * cbn in Herr. destruct (Ascii.eqb _ _); discriminate Herr.
      * cbn in Herr. injection Herr as <-.
        apply (failure_cause_from_operand fr r _ labels labels); operand_side.
    + cbn in Herr. injection Herr as <-.
      apply (failure_cause_from_operand fl l _ labels labels); operand_side.
  - rewrite unparse_subtract in Herr.
    destruct (masm_unparseX86Expression namer l false labels) as [lstr|fl] eqn:El.
    + destruct (masm_unparseX86Expression namer r false labels) as [rstr|fr] eqn:Er.
      * discriminate Herr.
      * cbn in Herr. injection Herr as <-.
        apply (failure_cause_from_operand fr r _ labels labels); operand_side.
    + cbn in Herr. injection Herr as <-.
      apply (failure_cause_from_operand fl l _ labels labels); operand_side.
  - rewrite unparse_multiply in Herr.
    destruct (masm_unparseX86Expression namer l false labels) as [lstr|fl] eqn:El.
    + destruct (masm_unparseX86Expression namer r false labels) as [rstr|fr] eqn:Er.
      * discriminate Herr.
      * cbn in Herr. injection Herr as <-.
        apply (failure_cause_from_operand fr r _ labels labels); operand_side.
    + cbn in Herr. injection Herr as <-.
      apply (failure_cause_from_operand fl l _ labels labels); operand_side.
  - destruct (complete_ (X86IndirectAddress_new
                (Some (V_SgAsmMemoryReferenceExpression a sg t)))) eqn:Hc.
    + rewrite unparse_matched in Herr by exact Hc.
      destruct (emit_outcome (X86IndirectAddress_new
                  (Some (V_SgAsmMemoryReferenceExpression a sg t))))
        as [[text Hok] | Hnull]; [congruence|].
      rewrite Hnull in Herr. injection Herr as <-. reflexivity.
    + rewrite unparse_unmatched in Herr by exact Hc.
      assert (forall fs, masm_unparseX86Expression namer sg false None = Err fs ->
                         failure_cause fs (V_SgAsmMemoryReferenceExpression a sg t)
                           labels) as Hseg.
      { intros fs Hfs.
        apply (failure_cause_from_operand fs sg _ labels None); operand_side. }
      assert (forall fa, masm_unparseX86Expression namer a false labels = Err fa ->
                         failure_cause fa (V_SgAsmMemoryReferenceExpression a sg t)
                           labels) as Haddr.
      { intros fa Hfa.
        apply (failure_cause_from_operand fa a _ labels labels); operand_side. }
      destruct (negb leaMode).
      * destruct sg as [sg'|].
        -- destruct (masm_unparseX86Expression namer (Some sg') false None)
             as [segreg|fs] eqn:Es.
           ++ cbn in Herr. 
              destruct (masm_unparseX86Expression namer a false labels)
                as [addr|fa] eqn:Ea.
              ** destruct (segreg =? "fs")%string; discriminate Herr.
              ** apply Haddr.
                 destruct (segreg =? "fs")%string; cbn in Herr; exact Herr.
           ++ cbn in Herr. injection Herr as <-. apply Hseg. reflexivity.
        -- cbn in Herr.
           destruct (masm_unparseX86Expression namer a false labels)
             as [addr|fa] eqn:Ea; [discriminate Herr|].
           apply Haddr. exact Herr.
      * cbn in Herr.
        destruct (masm_unparseX86Expression namer a false labels)
          as [addr|fa] eqn:Ea; [discriminate Herr|].
        apply Haddr. exact Herr.
  - discriminate Herr.
  - discriminate Herr.
  - destruct (integer_literal_outcome v leaMode labels)
      as [(text & Hok & _) | (Hov & _ & Hlen)];
      cbn [masm_unparseX86Expression] in *; rewrite Herr in *.
    + discriminate Hok.
    + injection Hov as ->. cbn. intros ->.
      rewrite masm_x86ValToLabel_null in Hlen. simpl in Hlen. lia.
  - cbn in Herr. injection Herr as <-. reflexivity.
Qed.

(** X6. Why the unparser fails. An unhandled-kind failure needs a node of an
    unhandled kind in the expression; a null dereference needs a memory
    reference; a buffer overrun needs a label map; and the type namer's
    failure never occurs. *)
Theorem failure_causes e leaMode labels f :
  masm_unparseX86Expression namer (Some e) leaMode labels = Err f ->
  failure_cause f e labels.
Proof. apply failure_cause_of. Qed.

(** X7. An expression made of the binary operators, registers and integer
    literals only is always rendered when no label map is given. *)
Theorem arithmetic_tree_renders e leaMode :
  has_other e = false -> has_memory_reference e = false ->
  exists text, masm_unparseX86Expression namer (Some e) leaMode None = Ok text.
Proof.
  intros Ho Hm. cbn [masm_unparseX86Expression].
  destruct (masm_unparseX86Expression_at namer e leaMode None) as [text|f] eqn:E.
  - eauto.
  - apply failure_cause_of in E.
    destruct f; cbn in E;
      [congruence | contradiction | congruence | exfalso; apply E; reflexivity].
Qed.

End UnparserMore.

(** ** Labels *)

Section Labels.
Import Fmt FmtFacts.
Variable namer : RegisterDescriptor -> string.

(** X8. A name registered for a nonzero address is what the lookup returns
    for that address, and registering it changes the lookup of no other
    address. *)
Theorem label_insert_lookup (m : RoseLabelMap) key name val :
  key <> 0 ->
  masm_x86ValToLabel key (Some (<[key := name]> m)) = name
  /\ (val <> key ->
      masm_x86ValToLabel val (Some (<[key := name]> m))
      = masm_x86ValToLabel val (Some m)).
Proof.
  intros Hk. split.
  - apply masm_x86ValToLabel_found; [exact Hk | apply lookup_insert_eq].
  - intros Hne. unfold masm_x86ValToLabel.
    destruct (val =? 0); [reflexivity|].
    rewrite lookup_insert_ne by congruence. reflexivity.
Qed.

(** X9. Two entries of a label map are invisible to the lookup: any name
    stored under the key 0, and an empty name under any key (it reads as if
    the key were absent). *)
Theorem label_invisible_entries (m : RoseLabelMap) key name val :
  masm_x86ValToLabel val (Some (<[0 := name]> m))
  = masm_x86ValToLabel val (Some m)
  /\ masm_x86ValToLabel val (Some (<[key := ""]> m))
     = masm_x86ValToLabel val (Some (delete key m)).
Proof.
  split; unfold masm_x86ValToLabel.
  - destruct (Z.eqb_spec val 0) as [->|Hnz]; [reflexivity|].
    rewrite lookup_insert_ne by congruence. reflexivity.
  - destruct (val =? 0); [reflexivity|].
    destruct (Z.eq_dec key val) as [->|Hne].
    + rewrite lookup_insert_eq, lookup_delete_eq. reflexivity.
    + rewrite lookup_insert_ne, lookup_delete_ne by exact Hne. reflexivity.
Qed.

Lemma unparse_integer_value_labels v labels1 labels2 :
  masm_x86ValToLabel (getAsmConstant v) labels1
  = masm_x86ValToLabel (getAsmConstant v) labels2 ->
  unparse_integer_value v labels1 = unparse_integer_value v labels2.
Proof.
  intros H. unfold unparse_integer_value. cbv zeta. rewrite H. reflexivity.
Qed.

(** X10. The text of an expression depends on the label map only through
    the lookup: two maps (or a map and no map) that give the same name for
    every address give the same rendering. *)
Theorem rendering_depends_on_lookup_only e leaMode labels1 labels2 :
  (forall val, masm_x86ValToLabel val labels1 = masm_x86ValToLabel val labels2) ->
  masm_unparseX86Expression namer (Some e) leaMode labels1
  = masm_unparseX86Expression namer (Some e) leaMode labels2.
Proof.
  intros Hsame. cbn [masm_unparseX86Expression]. revert leaMode.
  induction e as [l r IHl IHr|l r IHl IHr|l r IHl IHr|a sg t IHa IHs|d|d i|v|k]
    using expr_induction; intros leaMode.
  - rewrite !unparse_add.
    assert (masm_unparseX86Expression namer l false labels1
            = masm_unparseX86Expression namer l false labels2) as ->
      by (destruct l; [apply IHl | reflexivity]).
    assert (masm_unparseX86Expression namer r false labels1
            = masm_unparseX86Expression namer r false labels2) as ->
      by (destruct r; [apply IHr | reflexivity]).
    reflexivity.
  - rewrite !unparse_subtract.
    assert (masm_unparseX86Expression namer l false labels1
            = masm_unparseX86Expression namer l false labels2) as ->
      by (destruct l; [apply IHl | reflexivity]).
    assert (masm_unparseX86Expression namer r false labels1
            = masm_unparseX86Expression namer r false labels2) as ->
      by (destruct r; [apply IHr | reflexivity]).
    reflexivity.
  - rewrite !unparse_multiply.
    assert (masm_unparseX86Expression namer l false labels1
            = masm_unparseX86Expression namer l false labels2) as ->
      by (destruct l; [apply IHl | reflexivity]).
    assert (masm_unparseX86Expression namer r false labels1
            = masm_unparseX86Expression namer r false labels2) as ->
      by (destruct r; [apply IHr | reflexivity]).
    reflexivity.
  - destruct (complete_ (X86IndirectAddress_new
                (Some (V_SgAsmMemoryReferenceExpression a sg t)))) eqn:Hc.
    + rewrite !unparse_matched by exact Hc. reflexivity.
    + rewrite !unparse_unmatched by exact Hc.
      assert (masm_unparseX86Expression namer a false labels1
              = masm_unparseX86Expression namer a false labels2) as ->
        by (destruct a; [apply IHa | reflexivity]).
      reflexivity.
  - reflexivity.
  - reflexivity.
  - cbn. apply unparse_integer_value_labels, Hsame.
  - reflexivity.
Qed.

Lemma alt_hex_front v : Ascii.eqb (front (alt_hex v)) "-" = false.
Proof. unfold alt_hex. destruct (v =? 0); reflexivity. Qed.

(** X11. Adding a literal never prints "+-": when the literal has the
    negative form, its minus sign is the operator ([l-0x8]); otherwise a
    plus is put before the unsigned form. *)
Theorem add_of_literal l iv lstr leaMode labels :
  wf_int iv ->
  significantBits iv = 8 \/ significantBits iv = 16
  \/ ((significantBits iv = 32 \/ significantBits iv = 64)
      /\ masm_x86ValToLabel (bitVector iv) labels = "") ->
  masm_unparseX86Expression namer l false labels = Ok lstr ->
  masm_unparseX86Expression namer
    (Some (V_SgAsmBinaryAdd l (Some (V_SgAsmIntegerValueExpression iv))))
    leaMode labels
  = Ok (if sign_bit iv && nonzero (Z.clearbit (bitVector iv) (significantBits iv - 1))
        then lstr +:+ "-0x" +:+ hex (2 ^ significantBits iv - bitVector iv)
        else lstr +:+ "+" +:+ alt_hex (bitVector iv)).
Proof.
  intros Hwf Hbits Hl. cbn [masm_unparseX86Expression].
  rewrite unparse_add, Hl. cbn [bind masm_unparseX86Expression
    masm_unparseX86Expression_at].
  rewrite unparse_integer_value_numeral by assumption.
  cbn [bind]. unfold sign_magnitude_numeral, sign_bit.
  destruct (Z.testbit (bitVector iv) (significantBits iv - 1)
            && nonzero (Z.clearbit (bitVector iv) (significantBits iv - 1))).
  - reflexivity.
  - rewrite alt_hex_front. reflexivity.
Qed.

(** X12. A memory reference the recogniser does not accept is rendered as
    its address in brackets. Outside lea mode a segment expression is
    rendered too (without label map) and shown as "fs:" when its text is
    "fs", and not at all otherwise; in lea mode the segment is not looked
    at. *)
Theorem unmatched_memory_reference address segexpr type labels atext :
  complete_ (X86IndirectAddress_new
               (Some (V_SgAsmMemoryReferenceExpression address segexpr type)))
  = false ->
  masm_unparseX86Expression namer address false labels = Ok atext ->
  masm_unparseX86Expression namer
    (Some (V_SgAsmMemoryReferenceExpression address segexpr type)) true labels
  = Ok ("[" +:+ atext +:+ "]")
  /\ (segexpr = None ->
      masm_unparseX86Expression namer
        (Some (V_SgAsmMemoryReferenceExpression address segexpr type)) false labels
      = Ok ("[" +:+ atext +:+ "]"))
  /\ (forall stext,
        segexpr <> None ->
        masm_unparseX86Expression namer segexpr false None = Ok stext ->
        masm_unparseX86Expression namer
          (Some (V_SgAsmMemoryReferenceExpression address segexpr type)) false labels
        = Ok ((if String.eqb stext "fs" then "fs:" else "")
              +:+ "[" +:+ atext +:+ "]"))
  /\ (forall f,
        masm_unparseX86Expression namer segexpr false None = Err f ->
        masm_unparseX86Expression namer
          (Some (V_SgAsmMemoryReferenceExpression address segexpr type)) false labels
        = Err f).
Proof.
  intros Hc Ha. cbn [masm_unparseX86Expression].
  rewrite !unparse_unmatched by exact Hc. rewrite Ha.
  split; [reflexivity|]. split; [intros ->; reflexivity|]. split.
  - intros stext Hne Hs. destruct segexpr as [sg|]; [|congruence].
    rewrite Hs. cbn [negb bind].
    destruct (String.eqb_spec stext "fs") as [->|]; reflexivity.
  - intros f Hs. destruct segexpr as [sg|]; [|discriminate Hs].
    rewrite Hs. reflexivity.
Qed.

End Labels.

(** ** The byte dump read back *)

Section ByteDumpRoundTrip.
Import Fmt FmtFacts.

Lemma dump_loop_append (l : list Byte.byte) (acc : string) :
  fold_left (fun result b => result +:+ hex_byte (Z.of_N (Byte.to_N b))) l acc
  = acc +:+ fold_left (fun result b => result +:+ hex_byte (Z.of_N (Byte.to_N b))) l "".
Proof.
  revert acc. induction l as [|b l IH]; intros acc; cbn [fold_left].
  - symmetry. apply append_nil_r.
  - rewrite IH. rewrite (IH ("" +:+ _)).
    rewrite append_assoc. reflexivity.
Qed.

Lemma parse_dump_byte (b : Byte.byte) (rest : string) :
  parse_dump (hex_byte (byte_value b) +:+ rest) = byte_value b :: parse_dump rest.
Proof.
  pose proof (Byte.to_N_bounded b) as Hb.
  unfold byte_value. set (v := Z.of_N (Byte.to_N b)).
  assert (0 <= v < 256) as Hv by (subst v; lia).
  assert (0 <= v / 16 < 16) as Hhi
    by (split; [apply Z.div_pos; lia | apply Z.div_lt_upper_bound; lia]).
  assert (0 <= v mod 16 < 16) as Hlo by (apply Z.mod_pos_bound; lia).
  unfold hex_byte.
  change (parse_dump (String (digit_char true (v / 16))
                        (String (digit_char true (v mod 16)) rest))
          = v :: parse_dump rest).
  cbn [parse_dump].
  rewrite !digit_char_upper, !digit_value_char by assumption.
  cbn [andb]. f_equal.
  pose proof (Z.div_mod v 16). lia.
Qed.

Lemma parse_dump_loop (l : list Byte.byte) (tail : string) :
  tail = "" \/ tail = "+" ->
  parse_dump
    (fold_left (fun result b => result +:+ hex_byte (Z.of_N (Byte.to_N b))) l ""
     +:+ tail)
  = map byte_value l.
Proof.
  intros Htail. induction l as [|b l IH]; cbn [fold_left map].
  - destruct Htail as [-> | ->]; reflexivity.
  - rewrite dump_loop_append.
    change ("" +:+ hex_byte (Z.of_N (Byte.to_N b))) with (hex_byte (byte_value b)).
    rewrite append_assoc, parse_dump_byte, IH. reflexivity.
Qed.

(** X13. Reading the hexadecimal digit pairs of a dump back gives exactly
    the first [max_bytes] bytes of the data: no byte is lost, changed or
    reordered, and the "+" is no part of the bytes. *)
Theorem dump_round_trip (data : list Byte.byte) (max_bytes : nat) :
  parse_dump (debug_opcode_bytes data max_bytes)
  = map byte_value (firstn max_bytes data).
Proof.
  unfold debug_opcode_bytes.
  destruct (Nat.ltb_spec max_bytes (length data)) as [Hlt | Hge].
  - apply parse_dump_loop. right. reflexivity.
  - rewrite <- (append_nil_r (fold_left _ _ _)).
    rewrite parse_dump_loop by (left; reflexivity).
    rewrite !firstn_all2 by lia. reflexivity.
Qed.

End ByteDumpRoundTrip.

(** ** Operands, instructions and functions *)

Section ListingFacts.
Import Fmt FmtFacts.
Variable namer : RegisterDescriptor -> string.
Variable unparseInstruction : SgAsmInstruction -> string.
Variable addr_str : Z -> string.

(** X14. A top-level operand is rendered in the lea mode of its nearest
    enclosing x86 instruction; an operand with no x86 instruction above it is
    rendered as "?", whatever expression it is. *)
Theorem operand_uses_nearest_instruction e others kind rest labels :
  Forall (fun n => n = Node_other) others ->
  masm_unparseX86Expression_operand namer
    (Some (mkOperand e (others ++ Node_SgAsmX86Instruction kind :: rest))) labels
  = masm_unparseX86Expression namer (Some e) (is_x86_lea kind) labels
  /\ masm_unparseX86Expression_operand namer (Some (mkOperand e others)) labels
     = Ok "?".
Proof.
  intros Hothers. unfold masm_unparseX86Expression_operand. cbn [op_parents op_expr].
  induction Hothers as [|n others -> _ [IH1 IH2]]; [split; reflexivity|].
  cbn [app enclosing_insn]. split; assumption.
Qed.

Lemma append_operands_from elist texts labels acc :
  Forall2 (fun exp text =>
             masm_unparseX86Expression_operand namer exp labels = Ok text)
          elist texts ->
  append_operands namer elist labels acc
  = Ok (acc +:+ String.concat ", " (map c_str texts)).
Proof.
  intros H. revert acc.
  induction H as [|exp text elist texts Hexp Hrest IH]; intros acc.
  - cbn [append_operands map String.concat]. rewrite append_nil_r. reflexivity.
  - cbn [append_operands]. rewrite Hexp. cbn [bind].
    destruct Hrest as [|exp' text' elist' texts' Hexp' Hrest'].
    + cbn [append_operands map String.concat]. reflexivity.
    + rewrite IH. cbn [map String.concat].
      rewrite !append_assoc. reflexivity.
Qed.

(** X15. The operand text of an instruction is the operands' texts joined
    by ", ": a separator between two operands, none after the last, and
    the empty text for no operand. *)
Theorem operands_joined elist texts labels :
  Forall2 (fun exp text =>
             masm_unparseX86Expression_operand namer exp labels = Ok text)
          elist texts ->
  append_operands namer elist labels ""
  = Ok (String.concat ", " (map c_str texts)).
Proof. intros H. apply (append_operands_from elist texts labels ""), H. Qed.

Lemma append_operands_failure pre texts exp post f labels acc :
  Forall2 (fun exp text =>
             masm_unparseX86Expression_operand namer exp labels = Ok text)
          pre texts ->
  masm_unparseX86Expression_operand namer exp labels = Err f ->
  append_operands namer (pre ++ exp :: post) labels acc = Err f.
Proof.
  intros H Hf. revert acc.
  induction H as [|exp0 text pre texts Hexp Hrest IH]; intros acc.
  - cbn. rewrite Hf. reflexivity.
  - cbn [app append_operands]. rewrite Hexp. cbn [bind].
    destruct (pre ++ exp :: post) eqn:E; [destruct pre; discriminate E|].
    apply IH.
Qed.

(** X16. When an operand of an x86 instruction cannot be rendered, the
    instruction is not rendered either: [debug_instruction] fails with the
    failure of the first such operand, and no partial line is returned. *)
Theorem first_failing_operand_fails_instruction inst pre texts exp post f max_bytes labels :
  isSgAsmX86Instruction inst = true ->
  get_operandList inst = pre ++ exp :: post ->
  Forall2 (fun exp text =>
             masm_unparseX86Expression_operand namer exp labels = Ok text)
          pre texts ->
  masm_unparseX86Expression_operand namer exp labels = Err f ->
  debug_instruction namer unparseInstruction addr_str (Some inst) max_bytes labels
  = Err f.
Proof.
  intros Hx Hops Hpre Hf. unfold debug_instruction. rewrite Hx, Hops.
  cbn [negb]. rewrite (append_operands_failure pre texts exp post f labels "" Hpre Hf).
  reflexivity.
Qed.

Lemma substring_length n s : (String.length (String.substring 0 n s) <= n)%nat.
Proof.
  revert s. induction n as [|n IH]; intros [|c s]; cbn; try lia.
  specialize (IH s). lia.
Qed.

Lemma substring_all n s :
  (String.length s <= n)%nat -> String.substring 0 n s = s.
Proof.
  revert s. induction n as [|n IH]; intros [|c s] H; cbn in *; try reflexivity;
    try lia.
  f_equal. apply IH. lia.
Qed.

Lemma c_str_append a b : c_str a = a -> c_str (a +:+ b) = a +:+ c_str b.
Proof.
  induction a as [|ch a IH]; intros H; [reflexivity|].
  change (c_str (String ch (a +:+ b)) = String ch (a +:+ c_str b)).
  cbn [c_str] in *. destruct (Ascii.eqb ch zero); [discriminate H|].
  injection H as H. f_equal. apply IH, H.
Qed.

Lemma c_str_idempotent s : c_str (c_str s) = c_str s.
Proof.
  induction s as [|ch s IH]; [reflexivity|].
  cbn [c_str]. destruct (Ascii.eqb ch zero) eqn:E; [reflexivity|].
  cbn [c_str]. rewrite E, IH. reflexivity.
Qed.

Lemma c_str_separator rest : c_str (", " +:+ rest) = ", " +:+ c_str rest.
Proof. reflexivity. Qed.

Lemma c_str_concat texts :
  c_str (String.concat ", " (map c_str texts)) = String.concat ", " (map c_str texts).
Proof.
  induction texts as [|t texts IH]; [reflexivity|].
  destruct texts as [|t' texts].
  - apply c_str_idempotent.
  - change (c_str (c_str t +:+ ", "
                   +:+ String.concat ", " (map c_str (t' :: texts)))
            = c_str t +:+ ", " +:+ String.concat ", " (map c_str (t' :: texts))).
    rewrite c_str_append by apply c_str_idempotent.
    rewrite c_str_separator, IH. reflexivity.
Qed.

(** X17. The line of an x86 instruction is the address in upper-case
    hexadecimal, ": ", the mnemonic padded to nine columns, a blank and the
    joined operand texts, cut to 511 characters (the 512-byte buffer is
    never overrun), followed by the byte dump part. *)
Theorem debug_instruction_line inst texts max_bytes labels :
  isSgAsmX86Instruction inst = true ->
  Forall2 (fun exp text =>
             masm_unparseX86Expression_operand namer exp labels = Ok text)
          (get_operandList inst) texts ->
  let full :=
    hex_upper (u64 (get_address inst)) +:+ ": "
    +:+ pad_right 9 (c_str (get_mnemonic inst)) +:+ " "
    +:+ String.concat ", " (map c_str texts) in
  exists buffer,
    debug_instruction namer unparseInstruction addr_str (Some inst) max_bytes labels
    = Ok (buffer +:+ opcode_bytes_suffix inst max_bytes)
    /\ buffer = String.substring 0 511 full
    /\ (String.length buffer <= 511)%nat
    /\ ((String.length full <= 511)%nat -> buffer = full).
Proof.
  intros Hx Hops full.
  exists (String.substring 0 511 full).
  split; [|split; [reflexivity | split; [apply substring_length | apply substring_all]]].
  unfold debug_instruction. rewrite Hx. cbn [negb].
  rewrite (append_operands_from _ texts labels "" Hops). cbn [bind].
  change ("" +:+ String.concat ", " (map c_str texts))
    with (String.concat ", " (map c_str texts)).
  rewrite c_str_concat. reflexivity.
Qed.

(** X18. The byte dump part is an independent suffix, for x86 and other
    instructions alike: the line for a maximum [max_bytes] is the line for
    the maximum 0 followed by " ; BYTES: " and the dump when [max_bytes] is
    positive, and by nothing when it is 0. *)
Theorem debug_instruction_bytes_suffix inst max_bytes labels :
  debug_instruction namer unparseInstruction addr_str (Some inst) max_bytes labels
  = do line <- debug_instruction namer unparseInstruction addr_str
                 (Some inst) 0 labels;
    Ok (line +:+ (if (0 <? max_bytes)%nat
                  then " ; BYTES: "
                       +:+ debug_opcode_bytes (get_rawBytes inst) max_bytes
                  else "")).
Proof.
  unfold debug_instruction, opcode_bytes_suffix.
  destruct (isSgAsmX86Instruction inst); cbn [negb bind Nat.ltb Nat.leb].
  - destruct (append_operands namer (get_operandList inst) labels "");
      cbn [bind]; [|reflexivity].
    rewrite append_nil_r. reflexivity.
  - rewrite <- !append_assoc, append_nil_r. rewrite !append_assoc. reflexivity.
Qed.

End ListingFacts.

Section FunctionListing.
Import Fmt FmtFacts.
Variable namer : RegisterDescriptor -> string.
Variable unparseInstruction : SgAsmInstruction -> string.
Variable addr_str : Z -> string.

Local Abbreviation insn_line inst max_bytes labels :=
  (debug_instruction namer unparseInstruction addr_str (Some inst) max_bytes labels).
Local Abbreviation statements := (debug_statements namer unparseInstruction addr_str).
Local Abbreviation loop := (debug_function_loop namer unparseInstruction addr_str).

Lemma debug_statements_from stmts max_bytes labels acc :
  statements stmts max_bytes labels acc
  = prepend acc (statements stmts max_bytes labels "").
Proof.
  revert acc.
  induction stmts as [|[inst|] stmts IH]; intros acc; cbn [debug_statements].
  - cbn. rewrite append_nil_r. reflexivity.
  - destruct (debug_instruction namer unparseInstruction addr_str (Some inst)
                max_bytes labels) as [line|f]; [|reflexivity].
    rewrite IH. rewrite (IH ("" +:+ _)).
    destruct (debug_statements namer unparseInstruction addr_str stmts max_bytes
                labels ""); cbn [prepend]; [|reflexivity].
    rewrite !append_assoc. reflexivity.
  - reflexivity.
Qed.

Lemma debug_function_loop_from vertices max_bytes bbl reasons labels acc :
  loop vertices max_bytes bbl reasons labels acc
  = prepend acc (loop vertices max_bytes bbl reasons labels "").
Proof.
  revert acc.
  induction vertices as [|[blk|] vertices IH]; intros acc;
    cbn [debug_function_loop].
  - cbn. rewrite append_nil_r. reflexivity.
  - 
    set (header1 := fun result : string =>
           if reasons
           then result +:+ "; block reason: " +:+ reasonString blk +:+ newline
           else result).
    set (header2 := fun result : string =>
           if isSgAsmStaticData blk
           then result +:+ "; hey, this block is static data!" +:+ newline
           else result).
    change (match statements (get_statementList blk) max_bytes labels
                    (header2 (header1 acc)) with
            | Listing result =>
                debug_function_loop namer unparseInstruction addr_str vertices
                  max_bytes bbl reasons labels
                  (if bbl then result +:+ newline else result)
            | Aborted why => Aborted why
            end
            = prepend acc
                match statements (get_statementList blk) max_bytes labels
                        (header2 (header1 "")) with
                | Listing result =>
                    debug_function_loop namer unparseInstruction addr_str vertices
                      max_bytes bbl reasons labels
                      (if bbl then result +:+ newline else result)
                | Aborted why => Aborted why
                end).
    assert (header2 (header1 acc) = acc +:+ header2 (header1 "")) as ->.
    { subst header1 header2. cbv beta.
      destruct reasons, (isSgAsmStaticData blk);
        rewrite ?append_assoc, ?append_nil_r; reflexivity. }
    rewrite debug_statements_from.
    rewrite (debug_statements_from _ _ _ (header2 (header1 ""))).
    destruct (statements (get_statementList blk) max_bytes labels "") as [body|why];
      cbn [prepend]; [|reflexivity].
    rewrite IH.
    rewrite (IH (if bbl then (header2 (header1 "") +:+ body) +:+ newline
                 else header2 (header1 "") +:+ body)).
    destruct (debug_function_loop namer unparseInstruction addr_str vertices
                max_bytes bbl reasons labels "") as [tail|why];
      cbn [prepend]; [|reflexivity].
    destruct bbl; rewrite !append_assoc; reflexivity.
  - reflexivity.
Qed.

Lemma debug_function_loop_app v1 v2 max_bytes bbl reasons labels acc :
  loop (v1 ++ v2) max_bytes bbl reasons labels acc
  = match loop v1 max_bytes bbl reasons labels acc with
    | Listing text1 => prepend text1 (loop v2 max_bytes bbl reasons labels "")
    | Aborted why => Aborted why
    end.
Proof.
  revert acc. induction v1 as [|[blk|] v1 IH]; intros acc.
  - cbn [app debug_function_loop]. apply debug_function_loop_from.
  - cbn [app debug_function_loop].
    destruct (debug_statements namer unparseInstruction addr_str
                (get_statementList blk) max_bytes labels _) as [body|why];
      [|reflexivity].
    apply IH.
  - reflexivity.
Qed.

(** X19. The listing of a function is put together block by block: the
    listing of the vertices [v1 ++ v2] is the listing of [v1] followed by
    the listing of [v2], and it stops at the first of them that stops. *)
Theorem debug_function_app v1 v2 max_bytes bbl reasons labels :
  debug_function namer unparseInstruction addr_str (v1 ++ v2)
    max_bytes bbl reasons labels
  = match debug_function namer unparseInstruction addr_str v1
            max_bytes bbl reasons labels with
    | Listing text1 =>
        prepend text1
          (debug_function namer unparseInstruction addr_str v2
             max_bytes bbl reasons labels)
    | Aborted why => Aborted why
    end.
Proof. unfold debug_function. apply debug_function_loop_app. Qed.

(** X20. A listing is produced only when every vertex is a block, every
    statement of every block is an instruction, and every instruction could
    be rendered: nothing is skipped silently. *)
Theorem listing_needs_valid_blocks vertices max_bytes bbl reasons labels text :
  debug_function namer unparseInstruction addr_str vertices
    max_bytes bbl reasons labels = Listing text ->
  Forall (fun v =>
            exists blk, v = Some blk
              /\ Forall (fun st =>
                           exists inst line,
                             st = Stmt_SgAsmInstruction inst
                             /\ insn_line inst max_bytes labels = Ok line)
                        (get_statementList blk))
         vertices.
Proof.
  unfold debug_function. generalize "" as acc. revert text.
  induction vertices as [|[blk|] vertices IH]; intros text acc H.
  - constructor.
  - cbn [debug_function_loop] in H.
    match type of H with
    | context [debug_statements _ _ _ ?l _ _ ?r] =>
        destruct (debug_statements namer unparseInstruction addr_str l
                    max_bytes labels r) as [body|why] eqn:Hbody;
          [|discriminate H]
    end.
    constructor; [|eapply IH; exact H].
    exists blk. split; [reflexivity|].
    clear H IH. revert Hbody. generalize (if isSgAsmStaticData blk
      then (if reasons
            then acc +:+ "; block reason: " +:+ reasonString blk +:+ newline
            else acc) +:+ "; hey, this block is static data!" +:+ newline
      else if reasons
           then acc +:+ "; block reason: " +:+ reasonString blk +:+ newline
           else acc) as r.
    induction (get_statementList blk) as [|[inst|] stmts IHs]; intros r Hbody.
    + constructor.
    + cbn [debug_statements] in Hbody.
      destruct (debug_instruction namer unparseInstruction addr_str (Some inst)
                  max_bytes labels) as [line|f] eqn:Hline; [|discriminate Hbody].
      constructor; [|eapply IHs; exact Hbody].
      exists inst, line. split; [reflexivity | exact Hline].
    + discriminate Hbody.
  - discriminate H.
Qed.

Lemma debug_statements_lines stmts lines max_bytes labels :
  Forall2 (fun st line =>
             exists inst, st = Stmt_SgAsmInstruction inst
                          /\ insn_line inst max_bytes labels = Ok line)
          stmts lines ->
  statements stmts max_bytes labels ""
  = Listing (String.concat "" (map (fun line => line +:+ newline) lines)).
Proof.
  induction 1 as [|st line stmts lines (inst & -> & Hline) Hrest IH].
  - reflexivity.
  - cbn [debug_statements]. rewrite Hline.
    rewrite debug_statements_from.
    rewrite IH. cbn [prepend map].
    f_equal. change ("" +:+ line +:+ newline) with (line +:+ newline).
    destruct lines as [|line' lines].
    + cbn [map String.concat]. apply append_nil_r.
    + reflexivity.
Qed.

(** X21. The listing of one block whose statements are instructions: the
    reason line when reasons are asked for, the static-data line for a
    static-data block, one line per instruction, each ended by a newline,
    and an empty line when block separators are asked for. *)
Theorem block_listing blk lines max_bytes bbl reasons labels :
  Forall2 (fun st line =>
             exists inst, st = Stmt_SgAsmInstruction inst
                          /\ insn_line inst max_bytes labels = Ok line)
          (get_statementList blk) lines ->
  debug_function namer unparseInstruction addr_str [Some blk]
    max_bytes bbl reasons labels
  = Listing
      ((if reasons
        then "; block reason: " +:+ reasonString blk +:+ newline else "")
       +:+ (if isSgAsmStaticData blk
            then "; hey, this block is static data!" +:+ newline else "")
       +:+ String.concat "" (map (fun line => line +:+ newline) lines)
       +:+ (if bbl then newline else "")).
Proof.
  intros Hlines. unfold debug_function. cbn [debug_function_loop].
  rewrite debug_statements_from.
  rewrite (debug_statements_lines _ lines _ _ Hlines). cbn [prepend].
  f_equal.
  destruct reasons, (isSgAsmStaticData blk), bbl;
    rewrite ?append_assoc, ?append_nil_r; reflexivity.
Qed.

End FunctionListing.

(** ** The pointer-size keyword of a type *)

Section TypeNames.
Import Fmt.








End TypeNames.

(** ** The further properties at concrete inputs *)

Section ConcreteMore.
Import Sample SampleListing Fmt.

Example end_to_end :
  show_insn mov_insn 0 = Ok "401000: mov       [eax+ecx*4-0x8], edx"
  /\ show_insn mov_insn 3
     = Ok "401000: mov       [eax+ecx*4-0x8], edx ; BYTES: 895488+"
  /\ show_insn bad_insn 4 = Err (UnhandledExpressionKind "SgAsmRiscOperation").
Proof. repeat split; reflexivity. Qed.

Example listing_sample :
  list_function [Some block1]
  = Listing ("; block reason: entry point" +:+ newline
             +:+ "401000: mov       [eax+ecx*4-0x8], edx" +:+ newline
             +:+ newline)
  /\ list_function [Some block1; None] = Aborted AssertionFailed.
Proof. split; reflexivity. Qed.

Lemma accepted_address_shape_witness :
  complete_ (X86IndirectAddress_new indexed) = true
  /\ exists l r segexpr type a b,
       indexed = Some (V_SgAsmMemoryReferenceExpression
                         (Some (V_SgAsmBinaryAdd l r)) segexpr type)
       /\ (l = Some (V_SgAsmBinaryAdd a b) \/ r = Some (V_SgAsmBinaryAdd a b)).
Proof.
  split; [reflexivity|].
  destruct (accepted_address_shape
              (V_SgAsmMemoryReferenceExpression
                 (add (add (reg eax) (mul (reg ecx) (int 8 4)))
                      (int 32 (2 ^ 32 - 8))) None None) eq_refl)
    as (l & r & sg & ty & a & b & He & [[Hl _] | (_ & Hr & _)]);
    exists l, r, sg, ty, a, b; (split; [unfold indexed, mem; f_equal; exact He|]);
    [left; exact Hl | right; exact Hr].
Defined.

Lemma any_arrangement_is_canonical_witness :
  Permutation [int 32 (2 ^ 32 - 8); mul (int 8 4) (reg ecx); reg eax]
              [reg eax; mul (int 8 4) (reg ecx); int 32 (2 ^ 32 - 8)]
  /\ wf_int (mkInt 32 (2 ^ 32 - 8))
  /\ render (mem (add (int 32 (2 ^ 32 - 8))
                      (add (mul (int 8 4) (reg ecx)) (reg eax))))
     = Ok "[eax+ecx*4-0x8]".
Proof.
  assert (Permutation [int 32 (2 ^ 32 - 8); mul (int 8 4) (reg ecx); reg eax]
            [reg eax; mul (int 8 4) (reg ecx); int 32 (2 ^ 32 - 8)]) as Hp.
  { apply (Permutation_trans (l' := [int 32 (2 ^ 32 - 8); reg eax;
                                     mul (int 8 4) (reg ecx)])).
    - apply perm_skip, perm_swap.
    - apply (Permutation_trans (l' := [reg eax; int 32 (2 ^ 32 - 8);
                                       mul (int 8 4) (reg ecx)])).
      + apply perm_swap.
      + apply perm_skip, perm_swap. }
  split; [exact Hp|].
  split; [apply wf_int_sample; reflexivity|].
  exact (proj2 (any_arrangement_is_canonical names eax ecx (mkInt 8 4)
                  (mkInt 32 (2 ^ 32 - 8)) (mul (int 8 4) (reg ecx))
                  _ _ _ None None false None
                  (or_intror eq_refl) Hp (wf_int_sample 32 (2 ^ 32 - 8) eq_refl))).
Defined.

Lemma accepted_roles_are_rendered_witness :
  shape_of (reg eax) <> Unclassified
  /\ complete_ (classify_all X86IndirectAddress_init
                  [reg eax; mul (reg ecx) (int 8 4); int 32 (2 ^ 32 - 8)]) = true
  /\ exists r x s d,
       In (IsReg r) [shape_of (reg eax); shape_of (mul (reg ecx) (int 8 4));
                     shape_of (int 32 (2 ^ 32 - 8))]
       /\ In (IsMul x s) [shape_of (reg eax); shape_of (mul (reg ecx) (int 8 4));
                          shape_of (int 32 (2 ^ 32 - 8))]
       /\ In (IsInt d) [shape_of (reg eax); shape_of (mul (reg ecx) (int 8 4));
                        shape_of (int 32 (2 ^ 32 - 8))].
Proof.
  split; [discriminate|]. split; [reflexivity|].
  destruct (accepted_roles_are_rendered names
              (reg eax) (mul (reg ecx) (int 8 4)) (int 32 (2 ^ 32 - 8))
              ltac:(discriminate) ltac:(discriminate) ltac:(discriminate) eq_refl)
    as (r & x & s & d & Hr & Hm & Hi & _).
  exists r, x, s, d. repeat split; assumption.
Defined.

Lemma accepted_ignores_context_witness :
  complete_ (X86IndirectAddress_new indexed) = true
  /\ masm_unparseX86Expression names indexed false None
     = masm_unparseX86Expression names
         (Some (V_SgAsmMemoryReferenceExpression
                  (add (add (reg eax) (mul (reg ecx) (int 8 4)))
                       (int 32 (2 ^ 32 - 8)))
                  (Some (V_Other "SgAsmRiscOperation")) (Some nested_vector)))
         true (Some (<[2 ^ 32 - 8 := "label"]> one_label)).
Proof.
  split; [reflexivity|].
  apply (accepted_ignores_context names
           (add (add (reg eax) (mul (reg ecx) (int 8 4))) (int 32 (2 ^ 32 - 8)))).
  reflexivity.
Defined.

Lemma failure_causes_witness :
  masm_unparseX86Expression names
    (Some (V_SgAsmBinaryAdd (reg eax) (Some (V_Other "SgAsmRiscOperation"))))
    false None
  = Err (UnhandledExpressionKind "SgAsmRiscOperation")
  /\ has_other (V_SgAsmBinaryAdd (reg eax) (Some (V_Other "SgAsmRiscOperation")))
     = true.
Proof.
  split; [reflexivity|].
  exact (failure_causes names
           (V_SgAsmBinaryAdd (reg eax) (Some (V_Other "SgAsmRiscOperation")))
           false None (UnhandledExpressionKind "SgAsmRiscOperation") eq_refl).
Defined.

Lemma arithmetic_tree_renders_witness :
  has_other arithmetic = false /\ has_memory_reference arithmetic = false
  /\ exists text,
       masm_unparseX86Expression names (Some arithmetic) false None = Ok text.
Proof.
  split; [reflexivity|]. split; [reflexivity|].
  apply (arithmetic_tree_renders names arithmetic false); reflexivity.
Defined.

Lemma label_insert_lookup_witness :
  0x401000 <> 0
  /\ masm_x86ValToLabel 0x401000 (Some (<[0x401000 := "main"]> one_label)) = "main".
Proof.
  split; [discriminate|].
  apply (proj1 (label_insert_lookup one_label 0x401000 "main" 0
                  ltac:(discriminate))).
Defined.

Lemma rendering_depends_on_lookup_only_witness :
  (forall val, masm_x86ValToLabel val (Some zero_key) = masm_x86ValToLabel val None)
  /\ masm_unparseX86Expression names (add (reg eax) (int 32 0x401000)) false
       (Some zero_key)
     = masm_unparseX86Expression names (add (reg eax) (int 32 0x401000)) false
         None.
Proof.
  assert (forall val,
             masm_x86ValToLabel val (Some zero_key) = masm_x86ValToLabel val None)
    as Hsame.
  { intros val. rewrite masm_x86ValToLabel_null. unfold masm_x86ValToLabel, zero_key.
    destruct (Z.eqb_spec val 0) as [->|Hnz]; [reflexivity|].
    rewrite lookup_singleton_ne by congruence. reflexivity. }
  split; [exact Hsame|].
  apply (rendering_depends_on_lookup_only names
           (V_SgAsmBinaryAdd (reg eax) (int 32 0x401000)) false _ _ Hsame).
Defined.

Lemma add_of_literal_witness :
  wf_int (mkInt 32 (2 ^ 32 - 8))
  /\ masm_unparseX86Expression names (reg eax) false None = Ok "eax"
  /\ render (add (reg eax) (int 32 (2 ^ 32 - 8))) = Ok "eax-0x8"
  /\ render (add (reg eax) (int 32 8)) = Ok "eax+0x8".
Proof.
  split; [apply wf_int_sample; reflexivity|]. split; [reflexivity|]. split.
  - apply (add_of_literal names (reg eax) (mkInt 32 (2 ^ 32 - 8)) "eax" false None
             (wf_int_sample 32 (2 ^ 32 - 8) eq_refl)
             (or_intror (or_intror (conj (or_introl eq_refl) eq_refl))) eq_refl).
  - apply (add_of_literal names (reg eax) (mkInt 32 8) "eax" false None
             (wf_int_sample 32 8 eq_refl)
             (or_intror (or_intror (conj (or_introl eq_refl) eq_refl))) eq_refl).
Defined.

Lemma unmatched_memory_reference_witness :
  complete_ (X86IndirectAddress_new (Some fs_reference)) = false
  /\ masm_unparseX86Expression names (Some fs_reference) true None = Ok "[eax-0x8]"
  /\ masm_unparseX86Expression names (Some fs_reference) false None
     = Ok "fs:[eax-0x8]".
Proof.
  split; [reflexivity|].
  pose proof (unmatched_memory_reference names
                (add (reg eax) (int 32 (2 ^ 32 - 8))) (reg fs) None None
                "eax-0x8" eq_refl eq_refl) as (Hlea & _ & Hseg & _).
  split; [exact Hlea|].
  apply (Hseg "fs"); [discriminate | reflexivity].
Defined.

Lemma operand_uses_nearest_instruction_witness :
  Forall (fun n => n = Node_other) [Node_other]
  /\ masm_unparseX86Expression_operand names
       (Some (mkOperand fs_reference [Node_other; Node_SgAsmX86Instruction x86_lea]))
       None
     = Ok "[eax-0x8]"
  /\ masm_unparseX86Expression_operand names
       (Some (mkOperand (V_Other "SgAsmRiscOperation") [Node_other])) None
     = Ok "?".
Proof.
  assert (Forall (fun n => n = Node_other) [Node_other]) as Hothers
    by (constructor; [reflexivity | constructor]).
  split; [exact Hothers|]. split.
  - etransitivity;
      [exact (proj1 (operand_uses_nearest_instruction names fs_reference
                       [Node_other] x86_lea [] None Hothers))
      | reflexivity].
  - apply (proj2 (operand_uses_nearest_instruction names
                    (V_Other "SgAsmRiscOperation")
                    [Node_other] x86_lea [] None Hothers)).
Defined.

Lemma mov_operands_render :
  Forall2 (fun exp text =>
             masm_unparseX86Expression_operand names exp None = Ok text)
          (get_operandList mov_insn) ["[eax+ecx*4-0x8]"; "edx"].
Proof. repeat constructor. Defined.

Lemma operands_joined_witness :
  append_operands names (get_operandList mov_insn) None ""
  = Ok "[eax+ecx*4-0x8], edx".
Proof.
  apply (operands_joined names (get_operandList mov_insn)
           ["[eax+ecx*4-0x8]"; "edx"] None mov_operands_render).
Defined.

Lemma first_failing_operand_fails_instruction_witness :
  isSgAsmX86Instruction bad_insn = true
  /\ show_insn bad_insn 4 = Err (UnhandledExpressionKind "SgAsmRiscOperation").
Proof.
  split; [reflexivity|].
  apply (first_failing_operand_fails_instruction names generic_insn hex_addr
           bad_insn [in_mov (reg eax)] ["eax"]
           (in_mov (Some (V_Other "SgAsmRiscOperation"))) []
           (UnhandledExpressionKind "SgAsmRiscOperation") 4 None);
    try reflexivity.
  repeat constructor.
Defined.

Lemma debug_instruction_line_witness :
  isSgAsmX86Instruction mov_insn = true
  /\ exists buffer,
       show_insn mov_insn 3 = Ok (buffer +:+ " ; BYTES: 895488+")
       /\ buffer = "401000: mov       [eax+ecx*4-0x8], edx".
Proof.
  split; [reflexivity|].
  destruct (debug_instruction_line names generic_insn hex_addr mov_insn
              ["[eax+ecx*4-0x8]"; "edx"] 3 None eq_refl mov_operands_render)
    as (buffer & Hline & Hbuf & _).
  exists buffer. split; [exact Hline | exact Hbuf].
Defined.

Lemma listing_needs_valid_blocks_witness :
  list_function [Some block1]
  = Listing ("; block reason: entry point" +:+ newline
             +:+ "401000: mov       [eax+ecx*4-0x8], edx" +:+ newline
             +:+ newline)
  /\ Forall (fun v => exists blk, v = Some blk) [Some block1].
Proof.
  split; [reflexivity|].
  pose proof (listing_needs_valid_blocks names generic_insn hex_addr
                [Some block1] 0 true true None _ eq_refl) as H.
  eapply Forall_impl; [exact H|].
  intros v (blk & Hv & _). exists blk. exact Hv.
Defined.

Lemma block_listing_witness :
  list_function [Some block1]
  = Listing ("; block reason: entry point" +:+ newline
             +:+ "401000: mov       [eax+ecx*4-0x8], edx" +:+ newline
             +:+ newline).
Proof.
  apply (block_listing names generic_insn hex_addr block1
           ["401000: mov       [eax+ecx*4-0x8], edx"] 0 true true None).
  constructor; [|constructor].
  exists mov_insn. split; reflexivity.
Defined.

Example ptr_name_samples :
  masm_x86TypeToPtrName (Some plain_u64x2) = Ok "V2qword"
  /\ masm_x86TypeToPtrName (Some SgAsmVectorType_2xU64) = Ok "dqword"
  /\ masm_x86TypeToPtrName (Some four_dqwords) = Ok "V4dqword"
  /\ masm_x86TypeToPtrName (Some (SgAsmVectorType 3 None)) = Ok "V3BAD_TYPE"
  /\ masm_x86TypeToPtrName (Some (SgAsmVectorType 2 (Some (SgAsmIntegerType 128 false))))
     = Err UnhandledType.
Proof. repeat split; reflexivity. Qed.


End ConcreteMore.
